(** * Run execution engine of the custom agent runner

    A shallow embedding of the run lifecycle ([main.py]), the sandbox manager
    ([docker_runner.py]) and the inference proxy ([proxy_server.py]), with the
    properties of the run state machine, of output extraction and of proxy
    routing proved over it.

    Conventions.
    - Python values that travel through [json.loads]/[json.dump] are the
      inductive [json]; [JNull] is Python's [None].  Numbers are integers
      (no float reaches any decision modelled here).
    - A [dict] with string keys whose order matters nowhere is an association
      list read with first-match lookup ([dict_get]) when it is a JSON
      document, and a [gmap string _] when it is a registry keyed by run id.
    - [datetime] values are microsecond counts ([Z]); a [timedelta] is their
      difference.
    - Every call that leaves the process (file system, Docker daemon, HTTP,
      clock, [uuid4]) is an explicit input of the function that makes it. *)

From Stdlib Require Import ZArith Ascii.
From stdpp Require Import gmap strings list fin_maps pretty sorting.

Local Open Scope Z_scope.
Local Set Warnings "-register-all".

(** ** Python values *)

Inductive json : Type :=
  | JNull
  | JBool (b : bool)
  | JNum (n : Z)
  | JStr (s : string)
  | JList (l : list json)
  | JDict (d : list (string * json)).

(** [bool(v)]: [None], [False], [0], [""], [[]] and [{}] are false. *)
Definition truthy (v : json) : bool :=
  match v with
  | JNull => false
  | JBool b => b
  | JNum n => negb (n =? 0)
  | JStr s => negb (String.eqb s "")
  | JList l => match l with [] => false | _ => true end
  | JDict d => match d with [] => false | _ => true end
  end.

(** [d[k]] / [k in d] on a document. *)
Fixpoint dict_get {A : Type} (k : string) (d : list (string * A)) : option A :=
  match d with
  | [] => None
  | (k', v) :: d' => if String.eqb k k' then Some v else dict_get k d'
  end.

Definition dict_has {A : Type} (k : string) (d : list (string * A)) : bool :=
  match dict_get k d with Some _ => true | None => false end.

(** [d.get(k, dflt)] *)
Definition dict_get_default {A : Type} (k : string) (dflt : A)
    (d : list (string * A)) : A :=
  match dict_get k d with Some v => v | None => dflt end.

Definition isinstance_dict (v : json) : bool :=
  match v with JDict _ => true | _ => false end.

Definition isinstance_str (v : json) : bool :=
  match v with JStr _ => true | _ => false end.

(** ** Output extractor ([execute_agent_run], the [patch = ""] block) *)

Definition derive_patch (output : json) : json :=
  match output with
  | JDict d =>
      let patch := dict_get_default "patch" (JStr "") d in
      if negb (truthy patch) && dict_has "result" d then
        match dict_get "result" d with
        | Some (JDict r) => dict_get_default "patch" (JStr "") r
        | Some (JStr s) => JStr s
        | _ => patch
        end
      else patch
  | _ => JStr ""
  end.

(** ** Exceptions

    The handlers of the engine tell two classes apart:
    [asyncio.TimeoutError] and every other subclass of [Exception]; each is
    carried with its [str()]. *)

Inductive exn : Type :=
  | TimeoutError (msg : string)
  | Exception (msg : string).

(** A computation that returns or raises. *)
Definition raising (A : Type) : Type := exn + A.

Definition ret {A : Type} (a : A) : raising A := inr a.
Definition raise {A : Type} (e : exn) : raising A := inl e.

Definition bind {A B : Type} (m : raising A) (k : A → raising B) : raising B :=
  match m with
  | inl e => inl e
  | inr a => k a
  end.

Notation "'let*' x ':=' m 'in' k" := (bind m (fun x => k))
  (at level 10, x name, m at level 100, k at level 200, only parsing).

(** ** [models.py] *)

Inductive RunStatus : Type :=
  | PENDING | QUEUED | RUNNING | COMPLETED | FAILED | TIMEOUT | CANCELLED.

Global Instance RunStatus_eq_dec : EqDecision RunStatus.
Proof. solve_decision. Defined.

(** The four outcomes of the state machine. *)
Definition is_terminal (st : RunStatus) : bool :=
  match st with
  | COMPLETED | FAILED | TIMEOUT | CANCELLED => true
  | PENDING | QUEUED | RUNNING => false
  end.

(** [RunResult].  [output], [patch], [error] and [logs] hold whatever Python
    value is assigned to them ([JNull] until then); [duration_seconds] is the
    [timedelta] in microseconds. *)
Record RunResult : Type := mkRunResult {
  run_id : string;
  agent_id : string;
  status : RunStatus;
  created_at : Z;
  started_at : option Z;
  completed_at : option Z;
  duration_seconds : option Z;
  problem_statement : string;
  output : json;
  patch : json;
  error : json;
  logs : json;
  files_count : option nat;
  agent_path : option string
}.

Definition set_status (st : RunStatus) (r : RunResult) : RunResult :=
  mkRunResult (run_id r) (agent_id r) st (created_at r) (started_at r)
    (completed_at r) (duration_seconds r) (problem_statement r) (output r)
    (patch r) (error r) (logs r) (files_count r) (agent_path r).

Definition set_started_at (t : Z) (r : RunResult) : RunResult :=
  mkRunResult (run_id r) (agent_id r) (status r) (created_at r) (Some t)
    (completed_at r) (duration_seconds r) (problem_statement r) (output r)
    (patch r) (error r) (logs r) (files_count r) (agent_path r).

Definition set_files_count (n : nat) (r : RunResult) : RunResult :=
  mkRunResult (run_id r) (agent_id r) (status r) (created_at r) (started_at r)
    (completed_at r) (duration_seconds r) (problem_statement r) (output r)
    (patch r) (error r) (logs r) (Some n) (agent_path r).

Definition set_agent_path (p : string) (r : RunResult) : RunResult :=
  mkRunResult (run_id r) (agent_id r) (status r) (created_at r) (started_at r)
    (completed_at r) (duration_seconds r) (problem_statement r) (output r)
    (patch r) (error r) (logs r) (files_count r) (Some p).

(** The three assignments every failure path makes: [status], [error] and
    [completed_at = datetime.utcnow()]. *)
Definition set_failure (st : RunStatus) (msg : string) (now : Z)
    (r : RunResult) : RunResult :=
  mkRunResult (run_id r) (agent_id r) st (created_at r) (started_at r)
    (Some now) (duration_seconds r) (problem_statement r) (output r)
    (patch r) (JStr msg) (logs r) (files_count r) (agent_path r).

(** ** Strings as [docker_runner.py] uses them *)

(** [str.isspace] on a character (code points below 256). *)
Definition is_space (c : ascii) : bool :=
  let n := N_of_ascii c in
  ((9 <=? n) && (n <=? 13) || (28 <=? n) && (n <=? 32)
   || (n =? 133) || (n =? 160))%N.

Fixpoint lstrip (s : string) : string :=
  match s with
  | String c s' => if is_space c then lstrip s' else s
  | EmptyString => EmptyString
  end.

(** [s.strip()] *)
Definition strip (s : string) : string :=
  String.rev (lstrip (String.rev (lstrip s))).

(** [s.startswith(p)] and [s.endswith(p)] *)
Definition startswith (p s : string) : bool := String.prefix p s.

Definition endswith (p s : string) : bool :=
  String.prefix (String.rev p) (String.rev s).

(** [s.split('\n')]: never empty, [""] splits into [[""]]. *)
Fixpoint split_lines (s : string) : list string :=
  match s with
  | EmptyString => [EmptyString]
  | String c s' =>
      if Ascii.eqb c "010" then EmptyString :: split_lines s'
      else match split_lines s' with
           | l :: ls => String c l :: ls
           | [] => [String c EmptyString]
           end
  end.

(** ** [docker_runner.py] *)

(** The Docker daemon as the runner meets it: the requests that change a
    container are logged in the order they are issued. *)
Inductive docker_call : Type :=
  | ContainersRun (container : string)
  | ContainerStop (container : string)
  | ContainerRemove (container : string).

(** [DockerRunner]: the configured timeout (seconds), the bookkeeping dict
    [running_containers] (run id to container handle) and the requests sent
    to the daemon so far. *)
Record DockerRunner : Type := mkDockerRunner {
  timeout : Z;
  running_containers : gmap string string;
  daemon_calls : list docker_call
}.

(** One iteration of the polling loop of [_wait_for_container]: what
    [time.time() - start_time] reads at the loop test (whole seconds: the
    comparison is with the integer [timeout]) and what [container.reload()]
    then shows. *)
Inductive reload_result : Type :=
  | ReloadRaises (e : exn)
  | Reloaded (container_status : string) (exit_code : Z).

Record poll : Type := mkPoll {
  elapsed : Z;
  reload : reload_result
}.

(** The dict [_wait_for_container] returns: keys ['exit_code'] and
    ['status'], always both. *)
Record waited : Type := mkWaited {
  waited_exit_code : Z;
  waited_status : string
}.

(** [container.status in ['exited', 'dead']] *)
Definition has_exited (container_status : string) : bool :=
  bool_decide (container_status ∈ ["exited"; "dead"]).

(** [_wait_for_container].  The loop consumes one [poll] per iteration;
    [None] means that the container was still running at the last poll
    supplied. *)
Fixpoint _wait_for_container (polls : list poll) (timeout : Z)
    : option (raising waited) :=
  match polls with
  | [] => None
  | p :: polls' =>
      if elapsed p <? timeout then
        match reload p with
        | ReloadRaises e => Some (raise e)
        | Reloaded st code =>
            if has_exited st
            then Some (ret (mkWaited code st))
            else _wait_for_container polls' timeout
        end
      else Some (raise (TimeoutError
             ("Container did not complete within " +:+ pretty timeout
              +:+ " seconds")))
  end.

(** What the world supplies to one call of [run_agent]. *)
Record SandboxEnv : Type := mkSandboxEnv {
  (** lines 78-185, from [mkdtemp] to [containers.run]: [inl e] when one
      of them raises (no container exists then), [inr c] for the handle of
      the started container.  Proxy registration sits in its own
      [try]/[except Exception] and cannot make this fail. *)
  launch : raising string;
  polls : list poll;
  (** [time.time() - start_time] after the wait *)
  execution_time : Z;
  (** [container.logs(stdout=True, stderr=True).decode('utf-8')] *)
  container_logs : raising string;
  (** [output.json] in the workspace: its text when the file exists *)
  output_file : option string
}.

Section Engine.

(** [json.loads]: [inl msg] when it raises. *)
Context (json_loads : string → string + json).

Definition loads (text : string) : raising json :=
  match json_loads text with
  | inl msg => raise (Exception msg)
  | inr v => ret v
  end.

(** One turn of the loop of [_extract_output_from_logs]: a line is tried
    only when, stripped, it starts with an opening and ends with a closing
    brace, and a line [json.loads] rejects is passed over. *)
Definition parsed_line (line : string) : option json :=
  if startswith "{" (strip line) && endswith "}" (strip line) then
    match json_loads line with
    | inr v => Some v
    | inl _ => None
    end
  else None.

(** The loop, over the lines in the order given. *)
Fixpoint first_parsed (lines : list string) : option json :=
  match lines with
  | [] => None
  | line :: lines' =>
      match parsed_line line with
      | Some v => Some v
      | None => first_parsed lines'
      end
  end.

Definition _extract_output_from_logs (logs : string) : json :=
  match first_parsed (reverse (split_lines logs)) with
  | Some v => v
  | None => JDict [("logs", JStr logs)]
  end.

(** Lines 191-202 of [run_agent]: the output of a finished container. *)
Definition collect_output (output_file : option string) (logs : string)
    : raising json :=
  match output_file with
  | Some text => loads text
  | None => ret (_extract_output_from_logs logs)
  end.

(** The [try] block of [run_agent] once the container [c] runs. *)
Definition run_agent_body (self : DockerRunner) (env : SandboxEnv)
    : option (raising (list (string * json))) :=
  match _wait_for_container (polls env) (timeout self) with
  | None => None
  | Some w => Some (
      let* result := w in
      let* logs := container_logs env in
      let* output := collect_output (output_file env) logs in
      ret [("success", JBool (waited_exit_code result =? 0));
           ("output", output);
           ("logs", JList (JStr <$> split_lines logs));
           ("execution_time", JNum (execution_time env));
           ("exit_code", JNum (waited_exit_code result))])
  end.

(** The two [except] clauses of [run_agent]; [stopped] lists the daemon
    requests the handler issues for the container, if there is one. *)
Definition run_agent_except (self : DockerRunner) (container : option string)
    (e : exn) : raising (list (string * json)) * list docker_call :=
  match e with
  | TimeoutError _ =>
      (ret [("success", JBool false);
            ("error", JStr ("Execution timed out after "
                            +:+ pretty (timeout self) +:+ " seconds"));
            ("logs", JList [])],
       match container with Some c => [ContainerStop c] | None => [] end)
  | Exception msg =>
      (ret [("success", JBool false); ("error", JStr msg);
            ("logs", JList [])], [])
  end.

(** [run_agent]: [try] / [except] / [finally], with the runner's state
    threaded through.  [None]: the polls supplied end before the loop
    does. *)
Definition run_agent (self : DockerRunner) (run_id : string)
    (env : SandboxEnv)
    : option (raising (list (string * json)) * DockerRunner) :=
  match launch env with
  | inl e => Some (fst (run_agent_except self None e), self)
  | inr c =>
      let started :=
        mkDockerRunner (timeout self)
          (<[run_id := c]> (running_containers self))
          (daemon_calls self ++ [ContainersRun c]) in
      match run_agent_body started env with
      | None => None
      | Some body =>
          let '(result, stopped) :=
            match body with
            | inr r => (ret r, [])
            | inl e => run_agent_except started (Some c) e
            end in
          Some (result,
                mkDockerRunner (timeout self)
                  (delete run_id (running_containers started))
                  (daemon_calls started ++ stopped ++ [ContainerRemove c]))
      end
  end.

(** [stop_run]: a no-op for an untracked run; otherwise stop, remove (skipped
    when the stop raises: both sit in one [try] whose [except] swallows
    everything) and forget the container.  It never raises. *)
Definition stop_run (stop_raises : bool) (run_id : string)
    (self : DockerRunner) : raising unit * DockerRunner :=
  match running_containers self !! run_id with
  | Some c =>
      (ret tt,
       mkDockerRunner (timeout self)
         (delete run_id (running_containers self))
         (daemon_calls self
          ++ ContainerStop c
             :: (if stop_raises then [] else [ContainerRemove c])))
  | None => (ret tt, self)
  end.

(** *** The bootstrap script of [_create_runner_script]

    The generated text is modelled by what it does when run as
    [python runner.py] in the workspace; [has_files] is the flag the
    generator splices into it.  The model starts from a script that parses
    (the escaping of the spliced strings is not modelled) and leaves out the
    [git init] of the files directory, which no result depends on. *)

Inductive import_outcome : Type :=
  | Imported (has_agent_main : bool)
  | RaisesImportError (msg : string)
  (** any other exception of the agent module's top level: uncaught *)
  | RaisesOther (msg : string).

Inductive agent_outcome : Type :=
  (** a value built from [None], booleans, integers, strings, lists and
      dicts with string keys: [json.dump] writes it as it is *)
  | AgentReturns (result : json)
  (** any other value, by what the end of the script makes of it:
      [dumped] is what [json.dump(output, f, indent=2, default=str)] does,
      [inl partial] when it raises (a dict key that is neither text nor a
      number, a reference cycle) having written [partial], [inr doc] for
      the document it writes otherwise ([default=str] turning what is not
      JSON into text); [sized] tells whether [len] applies to the patch
      derived from the value *)
  | AgentReturnsOther (dumped : string + json) (sized : bool)
  (** an [Exception], with [str(e)] and [traceback.format_exc()] *)
  | AgentRaises (msg trace : string)
  (** [SystemExit(code)]: not an [Exception], it ends the script *)
  | AgentExits (code : Z).

Record ScriptEnv : Type := mkScriptEnv {
  import_agent : import_outcome;
  agent_main : agent_outcome;
  (** [git diff HEAD]: its stdout when it ran with return code 0 *)
  git_diff : option string
}.

(** What one execution leaves behind: what [/workspace/output.json] holds
    ([None]: the script did not create it; [inr doc]: the document written;
    [inl partial]: the text [json.dump] had written when it raised), and the
    exit status of the process. *)
Record ScriptRun : Type := mkScriptRun {
  written : option (string + json);
  script_exit : Z
}.

(** [len(v)] is defined *)
Definition has_len (v : json) : bool :=
  match v with
  | JStr _ | JList _ | JDict _ => true
  | JNull | JBool _ | JNum _ => false
  end.

(** The patch the script derives from what the agent returned. *)
Definition script_patch (has_files : bool) (git_diff : option string)
    (result : json) : json :=
  let patch :=
    match result with
    | JDict d => match dict_get "patch" d with Some v => v | None => JNull end
    | JStr s => JStr s
    | _ => JNull
    end in
  if negb (truthy patch) && has_files then
    match git_diff with
    | Some stdout => if truthy (JStr stdout) then JStr stdout else patch
    | None => patch
    end
  else patch.

(** From "Write output to file" to the end.  The file is opened and
    [json.dump] runs, outside every [try]: when it raises, the file keeps
    what was written and the exit status is 1.  Otherwise the length of the
    patch is printed ([TypeError], exit status 1, when [len] is not defined
    on it), then [sys.exit(0)]. *)
Definition script_finish (dumped : string + json) (sized : bool)
    : ScriptRun :=
  match dumped with
  | inl partial => mkScriptRun (Some (inl partial)) 1
  | inr doc => mkScriptRun (Some (inr doc)) (if sized then 0 else 1)
  end.

(** [json.dump] of an output made of JSON values writes it as it is; the
    patch whose length is printed is [output.get('patch', '')]. *)
Definition script_finish_json (output : list (string * json)) : ScriptRun :=
  script_finish (inr (JDict output))
    (has_len (dict_get_default "patch" (JStr "") output)).

Definition runner_script (has_files : bool) (env : ScriptEnv) : ScriptRun :=
  match import_agent env with
  | RaisesImportError _ => mkScriptRun None 1
  | RaisesOther _ => mkScriptRun None 1
  | Imported has_agent_main =>
      let outcome :=
        if has_agent_main then agent_main env
        else AgentReturns
               (JDict [("error", JStr "agent_main function not found")]) in
      match outcome with
      | AgentReturns result =>
          script_finish_json
            [("result", result);
             ("patch", script_patch has_files (git_diff env) result);
             ("success", JBool true)]
      | AgentReturnsOther dumped sized => script_finish dumped sized
      | AgentRaises msg trace =>
          script_finish_json
            [("error", JStr msg); ("traceback", JStr trace);
             ("success", JBool false)]
      | AgentExits code => mkScriptRun None code
      end
  end.

(** ** [main.py] *)

Record HTTPException : Type := mkHTTPException {
  status_code : Z;
  detail : string
}.

(** The process state of the API.  [runs_db] maps a run id to a reference to
    a [RunResult] object, and the coroutines keep mutating the object they
    hold after its key is deleted.  One object is allocated per [uuid4], so
    objects are named by the run id they were created for: [records] is the
    store of all [RunResult] objects and [runs_db] the set of keys the dict
    has at the moment; [runs_db[k]] is the object [records !! k]. *)
Record App : Type := mkApp {
  records : gmap string RunResult;
  runs_db : gset string;
  docker_runner : DockerRunner
}.

(** [get_run_status] *)
Definition get_run_status (rid : string) (app : App)
    : HTTPException + RunResult :=
  if bool_decide (rid ∈ runs_db app) then
    match records app !! rid with
    | Some r => inr r
    | None => inl (mkHTTPException 404 ("Run " +:+ rid +:+ " not found"))
    end
  else inl (mkHTTPException 404 ("Run " +:+ rid +:+ " not found")).

(** The call raised [HTTPException]. *)
Definition is_inl {A B : Type} (x : A + B) : Prop :=
  match x with inl _ => True | inr _ => False end.

(** [submit_run], lines 83-93: the record as it is stored. *)
Definition submit_run_create (rid agent problem : string) (now : Z)
    : RunResult :=
  mkRunResult rid agent PENDING now None None None problem
    JNull JNull JNull JNull None None.

(** [submit_run], lines 95-127, on the stored record.  [files_zip] is [None]
    without an upload, else what reading and extracting the archive gives
    ([inl msg]: it raises); [download] is what [download_agent] gives.  The
    flag tells whether [execute_agent_run] was added as a background task. *)
Definition submit_run_resolve (files_zip : option (string + list (string * string)))
    (download : string + string) (now : Z) (r : RunResult)
    : RunResult * bool :=
  match files_zip with
  | Some (inl msg) =>
      (set_failure FAILED ("Failed to extract ZIP file: " +:+ msg) now r,
       false)
  | _ =>
      let r1 :=
        match files_zip with
        | Some (inr extracted_files) =>
            set_files_count (length extracted_files) r
        | _ => r
        end in
      match download with
      | inl msg =>
          (set_failure FAILED ("Failed to download agent: " +:+ msg) now r1,
           false)
      | inr path => (set_status QUEUED (set_agent_path path r1), true)
      end
  end.

(** [execute_agent_run] up to the call of [run_agent]. *)
Definition execute_agent_run_start (now : Z) (r : RunResult) : RunResult :=
  set_started_at now (set_status RUNNING r).

(** [execute_agent_run] from the return of [run_agent] on: the rest of the
    [try] block, or the handler of what [run_agent] raised.  Nothing else in
    the block can raise. *)
Definition execute_agent_run_finish (outcome : raising (list (string * json)))
    (now : Z) (r : RunResult) : RunResult :=
  match outcome with
  | inr result =>
      let output := dict_get_default "output" (JDict []) result in
      mkRunResult (run_id r) (agent_id r)
        (* status *)
        (if truthy (dict_get_default "success" JNull result)
         then COMPLETED else FAILED)
        (created_at r) (started_at r)
        (* completed_at *)
        (Some now)
        (* duration_seconds, under [if run_result.started_at:] *)
        (match started_at r with
         | Some started => Some (now - started)
         | None => duration_seconds r
         end)
        (problem_statement r)
        (* output, patch, error, logs *)
        output
        (derive_patch output)
        (dict_get_default "error" JNull result)
        (dict_get_default "logs" (JList []) result)
        (files_count r) (agent_path r)
  | inl (TimeoutError _) =>
      set_failure TIMEOUT "Agent execution timed out" now r
  | inl (Exception msg) =>
      set_failure FAILED ("Execution error: " +:+ msg) now r
  end.

(** [execute_agent_run] as one call, on a record [r] that is still
    registered: the record it leaves. *)
Definition execute_agent_run (self : DockerRunner) (env : SandboxEnv)
    (t_start t_end : Z) (r : RunResult) : option RunResult :=
  match run_agent self (run_id r) env with
  | None => None
  | Some (outcome, _) =>
      Some (execute_agent_run_finish outcome t_end
              (execute_agent_run_start t_start r))
  end.

(** What [delete_run] does to the world, in order. *)
Inductive action : Type :=
  | StopRequested (rid : string)
  | RecordRemoved (rid : string).

(** [delete_run], over the [stop_run] it calls.  A raising stop is caught
    and only printed. *)
Definition delete_run_with
    (stop : string → DockerRunner → raising unit * DockerRunner)
    (rid : string) (app : App) : (HTTPException + string) * App * list action :=
  match get_run_status rid app with
  | inl _ =>
      (inl (mkHTTPException 404 ("Run " +:+ rid +:+ " not found")), app, [])
  | inr run_result =>
      let '(runner, stopped) :=
        if bool_decide (status run_result ∈ [RUNNING; QUEUED])
        then (snd (stop rid (docker_runner app)), [StopRequested rid])
        else (docker_runner app, []) in
      (inr ("Run " +:+ rid +:+ " deleted successfully"),
       mkApp (records app) (runs_db app ∖ {[rid]}) runner,
       stopped ++ [RecordRemoved rid])
  end.

Definition delete_run (stop_raises : bool) : string → App →
    (HTTPException + string) * App * list action :=
  delete_run_with (stop_run stop_raises).

(** The process state [delete_run] leaves. *)
Definition deleted (stop_raises : bool) (rid : string) (app : App) : App :=
  snd (fst (delete_run stop_raises rid app)).

(** ** [proxy_server.py] *)

Record RunConfig : Type := mkRunConfig {
  inference_url : string;
  api_key : string
}.

(** The two variables [handle_inference] reads from [os.environ]. *)
Record Environ : Type := mkEnviron {
  INFERENCE_URL : option string;
  API_KEY : option string
}.

Record InferenceRequest : Type := mkInferenceRequest {
  messages : json;
  model : string;
  temperature : json;
  request_run_id : string;
  max_tokens : Z
}.

(** The request [handle_inference] posts to the provider. *)
Record ProviderRequest : Type := mkProviderRequest {
  post_url : string;
  authorization : string;
  post_json : list (string * json)
}.

Definition register_run (rid url key : string)
    (run_configs : gmap string RunConfig) : gmap string RunConfig :=
  <[rid := mkRunConfig url key]> run_configs.

Definition unregister_run (rid : string)
    (run_configs : gmap string RunConfig) : string * gmap string RunConfig :=
  match run_configs !! rid with
  | Some _ => ("unregistered", delete rid run_configs)
  | None => ("not_found", run_configs)
  end.

(** Lines 48-59: the configuration the call is served with. *)
Definition resolve_config (environ : Environ) (rid : string)
    (run_configs : gmap string RunConfig) : HTTPException + RunConfig :=
  match run_configs !! rid with
  | None =>
      let url := default "https://api.openai.com/v1/chat/completions"
                   (INFERENCE_URL environ) in
      let key := default "" (API_KEY environ) in
      if negb (truthy (JStr key))
      then inl (mkHTTPException 401 "No API key configured for this run")
      else inr (mkRunConfig url key)
  | Some config => inr config
  end.

(** Lines 65-71: the three branches of the header. *)
Definition authorization_header (config : RunConfig) : string :=
  if startswith "Bearer " (api_key config) then api_key config
  else "Bearer " +:+ api_key config.

(** [handle_inference] up to the request it sends. *)
Definition handle_inference (environ : Environ) (request : InferenceRequest)
    (run_configs : gmap string RunConfig) : HTTPException + ProviderRequest :=
  match resolve_config environ (request_run_id request) run_configs with
  | inl e => inl e
  | inr config =>
      inr (mkProviderRequest (inference_url config)
             (authorization_header config)
             [("messages", messages request);
              ("model", JStr (model request));
              ("temperature", temperature request);
              ("max_tokens", JNum (max_tokens request))])
  end.

(** ** The engine as a transition system

    The API runs on one event loop: between two suspension points a
    coroutine runs alone.  An [event] is one such uninterrupted stretch.
    Every coroutine assigns the record's status before it suspends, so the
    status tells where the run's coroutine stands: [PENDING] inside
    [submit_run], [QUEUED] with the background task added and not started,
    [RUNNING] inside [run_agent]; a stretch is enabled on that status.

    [run_agent] is taken in one stretch, [ExecFinish]: the states in
    between, in which the container is in [running_containers] while the
    coroutine sleeps between two polls, are not states of this system, and a
    [stop_run] that falls in there shows as the [reload] of a later poll
    raising.  What is proved over [step] is about the records and the keys
    of [runs_db]; [stop_run], [cleanup] and [delete_run] on a tracked
    container are treated on their own, for every [DockerRunner]. *)

Inductive event : Type :=
  (** [submit_run] up to its first [await]; [rid] is the [uuid4] drawn *)
  | Submit (rid agent problem : string) (now : Z)
  (** the rest of [submit_run] *)
  | Resolve (rid : string) (files_zip : option (string + list (string * string)))
      (download : string + string) (now : Z)
  (** the background task starts *)
  | ExecStart (rid : string) (now : Z)
  (** [run_agent] returns, the task ends *)
  | ExecFinish (rid : string) (env : SandboxEnv) (now : Z)
  (** [delete_run] *)
  | Delete (rid : string) (stop_raises : bool).

Definition store (rid : string) (r : RunResult) (app : App) : App :=
  mkApp (<[rid := r]> (records app)) (runs_db app) (docker_runner app).

Definition step (app : App) (ev : event) : option App :=
  match ev with
  | Submit rid agent problem now =>
      match records app !! rid with
      | Some _ => None (* [uuid4] does not repeat *)
      | None =>
          Some (mkApp (<[rid := submit_run_create rid agent problem now]>
                         (records app))
                  ({[rid]} ∪ runs_db app) (docker_runner app))
      end
  | Resolve rid files_zip download now =>
      match records app !! rid with
      | Some r =>
          if decide (status r = PENDING)
          then Some (store rid
                       (fst (submit_run_resolve files_zip download now r)) app)
          else None
      | None => None
      end
  | ExecStart rid now =>
      match records app !! rid with
      | Some r =>
          if decide (status r = QUEUED) then
            (* [run_result = runs_db[run_id]]: a [KeyError] ends the task *)
            if bool_decide (rid ∈ runs_db app)
            then Some (store rid (execute_agent_run_start now r) app)
            else Some app
          else None
      | None => None
      end
  | ExecFinish rid env now =>
      match records app !! rid with
      | Some r =>
          if decide (status r = RUNNING) then
            match run_agent (docker_runner app) rid env with
            | Some (outcome, runner) =>
                Some (mkApp
                        (<[rid := execute_agent_run_finish outcome now r]>
                           (records app))
                        (runs_db app) runner)
            | None => None
            end
          else None
      | None => None
      end
  | Delete rid stop_raises => Some (deleted stop_raises rid app)
  end.

(** The process after [lifespan] has built [DockerRunner()]. *)
Definition init : App := mkApp ∅ ∅ (mkDockerRunner 300 ∅ []).

(** The states an event sequence goes through, first to last; [None] when
    an event is not enabled where it comes. *)
Fixpoint execution (app : App) (evs : list event) : option (list App) :=
  match evs with
  | [] => Some [app]
  | ev :: evs' =>
      match step app ev with
      | Some app' => cons app <$> execution app' evs'
      | None => None
      end
  end.

(** The state an event sequence ends in. *)
Fixpoint run (app : App) (evs : list event) : option App :=
  match evs with
  | [] => Some app
  | ev :: evs' =>
      match step app ev with
      | Some app' => run app' evs'
      | None => None
      end
  end.

(** The status values a record is seen to take along a sequence of states,
    each change once. *)
Definition observe (rid : string) (seen : list RunStatus) (app : App)
    : list RunStatus :=
  match records app !! rid with
  | Some r =>
      if decide (last seen = Some (status r)) then seen
      else seen ++ [status r]
  | None => seen
  end.

Definition status_sequence (rid : string) (states : list App)
    : list RunStatus :=
  foldl (observe rid) [] states.

End Engine.

(** A [json.loads] for closed examples: it reads the empty document and
    rejects everything else. *)
Definition loads_empty_document (text : string) : string + json :=
  if String.eqb text "{}" then inr (JDict [])
  else inl "Expecting value".

(** ** Statements of the specification, for comparison *)

(** The patch precedence as the specification words it: a top-level patch
    field wins whenever it is present. *)
Definition spec_derive_patch (output : json) : json :=
  match output with
  | JDict d =>
      match dict_get "patch" d with
      | Some v => v
      | None =>
          match dict_get "result" d with
          | Some (JDict r) => dict_get_default "patch" (JStr "") r
          | Some (JStr s) => JStr s
          | _ => JStr ""
          end
      end
  | _ => JStr ""
  end.


(** A poll that finds the deadline not reached and the container still
    running: the loop of [_wait_for_container] goes round once more. *)
Definition still_running (timeout : Z) (q : poll) : bool :=
  (elapsed q <? timeout)
  && match reload q with
     | Reloaded st _ => negb (has_exited st)
     | ReloadRaises _ => false
     end.

(** What the timing fields of a record hold in each status the engine
    assigns. *)
Definition record_ok (r : RunResult) : Prop :=
  match status r with
  | PENDING | QUEUED =>
      started_at r = None ∧ completed_at r = None
      ∧ duration_seconds r = None
  | RUNNING =>
      is_Some (started_at r) ∧ completed_at r = None
      ∧ duration_seconds r = None
  | COMPLETED =>
      ∃ s c, started_at r = Some s ∧ completed_at r = Some c
             ∧ duration_seconds r = Some (c - s)
  | FAILED =>
      (started_at r = None ∧ is_Some (completed_at r)
       ∧ duration_seconds r = None)
      ∨ (∃ s c, started_at r = Some s ∧ completed_at r = Some c
                ∧ duration_seconds r = Some (c - s))
  | TIMEOUT | CANCELLED => False
  end.

(** The status changes the handlers of the engine can make. *)
Definition status_edge (a b : RunStatus) : bool :=
  match a, b with
  | PENDING, QUEUED | PENDING, FAILED | QUEUED, RUNNING
  | RUNNING, COMPLETED | RUNNING, FAILED | RUNNING, TIMEOUT => true
  | _, _ => false
  end.

(** The status sequences that follow those changes from a new record. *)
Definition status_paths : list (list RunStatus) :=
  [ [PENDING];
    [PENDING; FAILED];
    [PENDING; QUEUED];
    [PENDING; QUEUED; RUNNING];
    [PENDING; QUEUED; RUNNING; COMPLETED];
    [PENDING; QUEUED; RUNNING; FAILED];
    [PENDING; QUEUED; RUNNING; TIMEOUT] ].

(** [seen] is the status sequence of a record that is now [cur] ([None]:
    not created yet). *)
Definition tracks (seen : list RunStatus) (cur : option RunResult) : Prop :=
  match cur with
  | None => seen = []
  | Some r => seen ∈ status_paths ∧ last seen = Some (status r)
  end.

(** ** A sample session

    Run [r1] is submitted without files, runs in a container that exits
    with 0 after writing an empty output document, and is deleted in the
    end; run [r2] is submitted with an archive that does not extract. *)

Definition sample_env : SandboxEnv :=
  mkSandboxEnv (inr "c1")
    [mkPoll 0 (Reloaded "running" 0); mkPoll 1 (Reloaded "exited" 0)]
    1 (inr "Agent execution completed") (Some "{}").

Definition sample_events : list event :=
  [ Submit "r1" "agent" "problem" 10;
    Resolve "r1" None (inr "/tmp/agent.py") 11;
    ExecStart "r1" 12;
    ExecFinish "r1" sample_env 20;
    Submit "r2" "agent" "problem" 21;
    Resolve "r2" (Some (inl "File is not a zip file")) (inr "/tmp/agent.py") 22;
    Delete "r1" false ].

Definition sample_r1 : RunResult :=
  mkRunResult "r1" "agent" COMPLETED 10 (Some 12) (Some 20) (Some 8)
    "problem" (JDict []) (JStr "") JNull
    (JList [JStr "Agent execution completed"]) None (Some "/tmp/agent.py").

Definition sample_r2 : RunResult :=
  mkRunResult "r2" "agent" FAILED 21 None (Some 22) None
    "problem" JNull JNull
    (JStr "Failed to extract ZIP file: File is not a zip file") JNull
    None None.

(** The state before the final [Delete] and the state after it. *)
Definition sample_before_delete : App :=
  mkApp {[ "r1" := sample_r1; "r2" := sample_r2 ]} {[ "r1"; "r2" ]}
    (mkDockerRunner 300 ∅ [ContainersRun "c1"; ContainerRemove "c1"]).

Definition sample_final : App :=
  mkApp {[ "r1" := sample_r1; "r2" := sample_r2 ]} {[ "r2" ]}
    (mkDockerRunner 300 ∅ [ContainersRun "c1"; ContainerRemove "c1"]).

(** A run that has been queued, as [execute_agent_run] finds it. *)
Definition sample_queued : RunResult :=
  mkRunResult "r1" "agent" QUEUED 10 None None None "problem"
    JNull JNull JNull JNull None (Some "/tmp/agent.py").

(** A container that exits with 0 and whose logs are not valid UTF-8. *)
Definition sample_env_bad_logs : SandboxEnv :=
  mkSandboxEnv (inr "c1") [mkPoll 1 (Reloaded "exited" 0)] 1
    (raise (Exception "'utf-8' codec can't decode byte 0xff in position 0"))
    (Some "{}").

(** The states the sample session goes through. *)
Definition sample_states : list App :=
  Eval vm_compute in
    default [] (execution loads_empty_document init sample_events).



Definition sample_environ : Environ :=
  mkEnviron (Some "https://default.example/v1") (Some "default-key").

Definition sample_request : InferenceRequest :=
  mkInferenceRequest (JList []) "model" (JNum 0) "r1" 4096.


(** * More of the engine *)


(** ** [docker_runner.py]: [cleanup] *)

(** [cleanup]: [stop_run] on every key of [running_containers], in the
    order [keys] the dict lists them; [stop_raises] tells for which runs
    [container.stop()] raises. *)
Definition cleanup (stop_raises : string → bool) (keys : list string)
    (self : DockerRunner) : DockerRunner :=
  foldl (λ runner rid, snd (stop_run (stop_raises rid) rid runner)) self keys.

(** The stop requests among the calls sent to the daemon. *)
Definition stop_requests (calls : list docker_call) : list string :=
  omap (λ call, match call with ContainerStop c => Some c | _ => None end)
    calls.

(** A runner that tracks two containers. *)
Definition sample_runner : DockerRunner :=
  mkDockerRunner 300 {[ "r1" := "c1"; "r2" := "c2" ]} [].

(** What [run_agent] returns for [sample_env], and the runner it leaves. *)
Definition sample_result : list (string * json) :=
  [("success", JBool true); ("output", JDict []);
   ("logs", JList [JStr "Agent execution completed"]);
   ("execution_time", JNum 1); ("exit_code", JNum 0)].

Definition sample_runner_after : DockerRunner :=
  mkDockerRunner 300 ∅ [ContainersRun "c1"; ContainerRemove "c1"].

(** A container that exits with 3 after writing an empty document. *)
Definition sample_env_exit3 : SandboxEnv :=
  mkSandboxEnv (inr "c1") [mkPoll 1 (Reloaded "exited" 3)] 1
    (inr "Traceback") (Some "{}").

(** ** [proxy_server.py]: [health_check] and the provider's answer *)

(** [health_check]: the number of registered runs. *)
Definition health_check (run_configs : gmap string RunConfig) : nat :=
  size run_configs.

(** What [client.post] gives [handle_inference]. *)
Inductive upstream : Type :=
  | UpstreamTimeout                      (** [httpx.TimeoutException] *)
  | UpstreamRequestError (msg : string)  (** another [httpx.RequestError] *)
  | UpstreamResponse (code : Z) (text : string).

(** What can be raised inside the [try] block of [handle_inference] besides
    the two [httpx] classes: the [HTTPException] for a status other than
    200, [response.json()] failing, ["choices" in result] on a value that
    is not a container, [result.get] on a value that has no [get]. *)
Inductive inner_exception : Type :=
  | ProviderStatus (e : HTTPException)
  | InvalidJson (msg : string)
  | NotIterable (v : json)
  | NoGet (v : json).

(** [needle in s] on strings *)
Fixpoint contains (needle s : string) : bool :=
  String.prefix needle s
  || match s with
     | EmptyString => false
     | String _ s' => contains needle s'
     end.

(** ["choices" in result]: key of a dict, element of a list, substring of a
    string; [None] when the value is not a container. *)
Definition choices_in (result : json) : option bool :=
  match result with
  | JDict d => Some (dict_has "choices" d)
  | JList l =>
      Some (existsb (λ v, match v with
                          | JStr s => String.eqb s "choices"
                          | _ => false
                          end) l)
  | JStr s => Some (contains "choices" s)
  | JNull | JBool _ | JNum _ => None
  end.

Section ProxyResponse.

(** [json.loads] as before, [str(e)] of what is raised inside the [try]
    block, and [str(v)] of a decoded value. *)
Context (json_loads : string → string + json).
Context (str_exception : inner_exception → string).
Context (py_str : json → string).

(** Lines 88-107: the body of the [try] block once [client.post] has
    returned. *)
Definition relay_response (code : Z) (text : string)
    : inner_exception + json :=
  if negb (code =? 200) then
    inl (ProviderStatus
           (mkHTTPException code ("Inference provider error: " +:+ text)))
  else
    match json_loads text with
    | inl msg => inl (InvalidJson msg)
    | inr result =>
        match choices_in result with
        | None => inl (NotIterable result)
        | Some true => inr result
        | Some false =>
            match result with
            | JDict d =>
                inr (JDict
                  [("choices",
                    JList [JDict
                      [("message",
                        JDict [("role", JStr "assistant");
                               ("content",
                                dict_get_default "text"
                                  (JStr (py_str result)) d)])]])])
            | _ => inl (NoGet result)
            end
        end
    end.

(** Lines 80-116: the [try] block with its three handlers.  An
    [HTTPException] raised inside the block is an [Exception] and is caught
    by the last handler like everything else. *)
Definition handle_inference_response (answer : upstream)
    : HTTPException + json :=
  match answer with
  | UpstreamTimeout => inl (mkHTTPException 504 "Inference request timed out")
  | UpstreamRequestError msg =>
      inl (mkHTTPException 502
             ("Failed to connect to inference provider: " +:+ msg))
  | UpstreamResponse code text =>
      match relay_response code text with
      | inl e =>
          inl (mkHTTPException 500
                 ("Internal error: " +:+ str_exception e))
      | inr result => inr result
      end
  end.

(** [handle_inference] as a whole: the request is built and posted, the
    answer handled; [provider] is the world's answer to the request. *)
Definition handle_inference_call (environ : Environ)
    (request : InferenceRequest) (run_configs : gmap string RunConfig)
    (provider : ProviderRequest → upstream) : HTTPException + json :=
  match handle_inference environ request run_configs with
  | inl e => inl e
  | inr post => handle_inference_response (provider post)
  end.

End ProxyResponse.

(** The process after run [r1] was deleted while queued: the record is
    still in the store, its key is gone. *)
Definition sample_deleted_queued : App :=
  mkApp {[ "r1" := sample_queued ]} ∅ (mkDockerRunner 300 ∅ []).

(** What the result fields of a record hold: before the run has finished in
    the sandbox, [output] and [patch] are unset; afterwards the patch is the
    one derived from the output, and a COMPLETED run has no error. *)
Definition result_ok (r : RunResult) : Prop :=
  match status r, started_at r with
  | (COMPLETED | FAILED), Some _ =>
      patch r = derive_patch (output r)
      ∧ (status r = COMPLETED → error r = JNull)
  | _, _ => output r = JNull ∧ patch r = JNull
  end.

(** The fields [submit_run] fills in when it creates the record. *)
Definition same_identity (r r' : RunResult) : Prop :=
  run_id r' = run_id r ∧ agent_id r' = agent_id r
  ∧ created_at r' = created_at r
  ∧ problem_statement r' = problem_statement r.

(** ** [main.py]: [list_runs] *)

(** [l[:n]]: a negative [n] counts from the end. *)
Definition slice_to {A : Type} (n : Z) (l : list A) : list A :=
  if 0 <=? n then take (Z.to_nat n) l
  else take (length l - Z.to_nat (- n))%nat l.

(** [l.sort(key=lambda x: x.created_at, reverse=True)]: the sort is stable,
    also in reverse, so a run goes in front of the runs of the same age that
    came after it. *)
Fixpoint insert_newest_first (x : RunResult) (l : list RunResult)
    : list RunResult :=
  match l with
  | [] => [x]
  | y :: l' =>
      if created_at y <=? created_at x then x :: y :: l'
      else y :: insert_newest_first x l'
  end.

Definition sort_newest_first (l : list RunResult) : list RunResult :=
  foldr insert_newest_first [] l.

(** [list_runs]; [values] is [list(runs_db.values())].  Every [RunStatus]
    is a non-empty string, so [if status:] is true for every status
    given. *)
Definition list_runs (limit : Z) (wanted : option RunStatus)
    (values : list RunResult) : list RunResult :=
  let all_runs :=
    match wanted with
    | Some st => filter (λ r, status r = st) values
    | None => values
    end in
  slice_to limit (sort_newest_first all_runs).

(** Newest first. *)
Definition newest_first (l : list RunResult) : Prop :=
  StronglySorted (λ a b, created_at b ≤ created_at a) l.

(** ** [agent_manager.py]: [download_agent] *)

(** What [session.get] and [response.text()] give [download_agent]. *)
Inductive fetched : Type :=
  | ClientError (msg : string)   (** [aiohttp.ClientError], a bad status included *)
  | FetchError (msg : string)    (** any other exception of the request *)
  | ResponseText (text : string).

Section AgentManager.

(** [json.loads]; the path [cache_dir / f"{version_id}.py"] as a string;
    [str(e)] of the [TypeError] that [f.write] raises for a value that is
    not a string. *)
Context (json_loads : string → string + json).
Context (agent_file : string → string).
Context (write_error : json → string).

(** [download_agent], over the files of the cache directory (path to
    content).  [open(agent_path, 'w')] creates or empties the file before
    [f.write] is reached. *)
Definition download_agent (version_id : string) (response : fetched)
    (files : gmap string string) : raising string * gmap string string :=
  let agent_path := agent_file version_id in
  match files !! agent_path with
  | Some _ => (ret agent_path, files)
  | None =>
      match response with
      | ClientError msg =>
          (raise (Exception ("Failed to download agent " +:+ version_id
                             +:+ ": " +:+ msg)), files)
      | FetchError msg =>
          (raise (Exception ("Error saving agent " +:+ version_id
                             +:+ ": " +:+ msg)), files)
      | ResponseText response_text =>
          let agent_code :=
            match json_loads response_text with
            | inr v => v
            | inl _ => JStr response_text
            end in
          match agent_code with
          | JStr code => (ret agent_path, <[agent_path := code]> files)
          | v =>
              (raise (Exception ("Error saving agent " +:+ version_id
                                 +:+ ": " +:+ write_error v)),
               <[agent_path := ""]> files)
          end
      end
  end.

End AgentManager.
(** * Properties *)

(** ** Output extractor *)

(** The four documents of the specification's example. *)
Example derive_patch_top :
  derive_patch (JDict [("patch", JStr "P")]) = JStr "P".
Proof. reflexivity. Qed.

Example derive_patch_nested :
  derive_patch (JDict [("result", JDict [("patch", JStr "P2")])]) = JStr "P2".
Proof. reflexivity. Qed.

Example derive_patch_text :
  derive_patch (JDict [("result", JStr "P3")]) = JStr "P3".
Proof. reflexivity. Qed.

Example derive_patch_none :
  derive_patch (JDict [("success", JBool true)]) = JStr "".
Proof. reflexivity. Qed.

Lemma derive_patch_not_dict (output : json) :
  isinstance_dict output = false → derive_patch output = JStr "".
Proof. by destruct output. Qed.

(** A present top-level patch never gets replaced when it is not empty. *)
Lemma derive_patch_truthy_top (d : list (string * json)) (v : json) :
  dict_get "patch" d = Some v → truthy v = true →
  derive_patch (JDict d) = v.
Proof.
  intros Hget Hv. unfold derive_patch, dict_get_default.
  by rewrite Hget, Hv.
Qed.

(** With no top-level patch, or an empty one, the [result] field decides. *)
Lemma derive_patch_falls_through (d : list (string * json)) :
  truthy (dict_get_default "patch" (JStr "") d) = false →
  derive_patch (JDict d) =
    match dict_get "result" d with
    | Some (JDict r) => dict_get_default "patch" (JStr "") r
    | Some (JStr s) => JStr s
    | _ => dict_get_default "patch" (JStr "") d
    end.
Proof.
  intros Hv. unfold derive_patch, dict_has. rewrite Hv. simpl.
  by destruct (dict_get "result" d) as [[]|].
Qed.

(** C2, as stated, fails: a document whose top-level patch field is the
    empty string and whose result field is text gets the text as its patch,
    not the value of the top-level field. *)
Lemma patch_precedence_counterexample :
  let doc := [("patch", JStr ""); ("result", JStr "P3")] in
  dict_get "patch" doc = Some (JStr "")
  ∧ derive_patch (JDict doc) = JStr "P3"
  ∧ derive_patch (JDict doc) ≠ spec_derive_patch (JDict doc).
Proof. simpl. split; [done|]. split; [done|]. discriminate. Qed.

(** C2, amended: the precedence is (1) a top-level patch field whose value is
    not empty; (2) failing that, the patch field of a result field that is a
    document; (3) failing that, a result field that is text; (4) otherwise
    an empty patch: the empty string when the result field is a document
    without a patch field or when there is no top-level patch field, else
    the empty value the top-level patch field holds. *)
Theorem derive_patch_precedence (d : list (string * json)) :
  (∀ v, dict_get "patch" d = Some v → truthy v = true →
        derive_patch (JDict d) = v)
  ∧ ((∀ v, dict_get "patch" d = Some v → truthy v = false) →
     (∀ r v, dict_get "result" d = Some (JDict r) →
             dict_get "patch" r = Some v → derive_patch (JDict d) = v)
     ∧ (∀ s, dict_get "result" d = Some (JStr s) →
             derive_patch (JDict d) = JStr s)
     ∧ (∀ r, dict_get "result" d = Some (JDict r) →
             dict_get "patch" r = None → derive_patch (JDict d) = JStr "")
     ∧ ((∀ res, dict_get "result" d = Some res →
                isinstance_dict res = false ∧ isinstance_str res = false) →
        derive_patch (JDict d) = default (JStr "") (dict_get "patch" d)
        ∧ truthy (derive_patch (JDict d)) = false)).
Proof.
  split; [apply derive_patch_truthy_top|].
  intros Hempty.
  assert (truthy (dict_get_default "patch" (JStr "") d) = false) as Htop.
  { unfold dict_get_default.
    destruct (dict_get "patch" d) as [v|] eqn:Hget; [by apply Hempty|done]. }
  rewrite (derive_patch_falls_through d Htop).
  split; [|split; [|split]].
  - intros r v -> Hr. unfold dict_get_default. by rewrite Hr.
  - by intros s ->.
  - intros r -> Hr. unfold dict_get_default. by rewrite Hr.
  - intros Hother.
    assert (match dict_get "result" d with
            | Some (JDict r) => dict_get_default "patch" (JStr "") r
            | Some (JStr s) => JStr s
            | _ => dict_get_default "patch" (JStr "") d
            end = dict_get_default "patch" (JStr "") d) as ->.
    { destruct (dict_get "result" d) as [res|]; [|done].
      destruct (Hother res eq_refl) as [Hd Hs]. by destruct res. }
    split; [|done]. unfold dict_get_default.
    by destruct (dict_get "patch" d).
Qed.


(** ** Sandbox manager: waiting for the container *)

Lemma wait_still_running (timeout : Z) (q : poll) (qs : list poll) :
  still_running timeout q = true →
  _wait_for_container (q :: qs) timeout = _wait_for_container qs timeout.
Proof.
  unfold still_running. intros [Ht Hr]%andb_prop. simpl. rewrite Ht.
  destruct (reload q) as [|st code]; [done|].
  by apply negb_true_iff in Hr as ->.
Qed.

Lemma wait_skips (timeout : Z) (pre rest : list poll) :
  forallb (still_running timeout) pre = true →
  _wait_for_container (pre ++ rest) timeout = _wait_for_container rest timeout.
Proof.
  induction pre as [|q pre IH]; [done|].
  intros [Hq Hpre]%andb_prop. rewrite <- app_comm_cons.
  rewrite wait_still_running by done. auto.
Qed.

(** The deadline passes before the container is seen to exit: the wait
    raises [asyncio.TimeoutError]. *)
Lemma wait_times_out (timeout : Z) (pre post : list poll) (p : poll) :
  forallb (still_running timeout) pre = true →
  timeout ≤ elapsed p →
  _wait_for_container (pre ++ p :: post) timeout =
    Some (raise (TimeoutError ("Container did not complete within "
                               +:+ pretty timeout +:+ " seconds"))).
Proof.
  intros Hpre Hp. rewrite wait_skips by done. simpl.
  by rewrite (proj2 (Z.ltb_ge _ _) Hp).
Qed.

(** The container is seen to have exited in time: the wait returns its exit
    code. *)
Lemma wait_exits (timeout : Z) (pre post : list poll) (p : poll)
    (st : string) (code : Z) :
  forallb (still_running timeout) pre = true →
  elapsed p < timeout → reload p = Reloaded st code → has_exited st = true →
  _wait_for_container (pre ++ p :: post) timeout =
    Some (ret (mkWaited code st)).
Proof.
  intros Hpre Hp Hr Hst. rewrite wait_skips by done. simpl.
  by rewrite (proj2 (Z.ltb_lt _ _) Hp), Hr, Hst.
Qed.

(** A returned wait result comes from a container that exited. *)
Lemma wait_returns_exited (timeout : Z) (qs : list poll) (w : waited) :
  _wait_for_container qs timeout = Some (inr w) →
  has_exited (waited_status w) = true.
Proof.
  induction qs as [|q qs IH]; [done|]. simpl.
  destruct (elapsed q <? timeout); [|done].
  destruct (reload q) as [|st code]; [done|].
  destruct (has_exited st) eqn:Hst; [|done].
  by intros [= <-].
Qed.

Section EngineProperties.

Context (json_loads : string → string + json).

(** ** Sandbox manager: [run_agent] *)

(** [run_agent] has a handler for everything its [try] block raises: it
    always returns a dict and never raises. *)
Lemma run_agent_returns (self runner : DockerRunner) (rid : string)
    (env : SandboxEnv) (outcome : raising (list (string * json))) :
  run_agent json_loads self rid env = Some (outcome, runner) →
  ∃ result, outcome = inr result.
Proof.
  unfold run_agent. destruct (launch env) as [[?|?]|c].
  - intros [= <- _]. simpl. eauto.
  - intros [= <- _]. simpl. eauto.
  - destruct (run_agent_body _ _ _) as [[[?|?]|result]|]; intros [= <- _];
      simpl; eauto.
Qed.

(** The dict [run_agent] returns when the wait times out. *)
Lemma run_agent_timeout (self : DockerRunner) (rid c : string)
    (env : SandboxEnv) (msg : string) :
  launch env = inr c →
  _wait_for_container (polls env) (timeout self)
    = Some (raise (TimeoutError msg)) →
  ∃ runner,
    run_agent json_loads self rid env =
      Some (ret [("success", JBool false);
                 ("error", JStr ("Execution timed out after "
                                 +:+ pretty (timeout self) +:+ " seconds"));
                 ("logs", JList [])], runner)
    ∧ running_containers runner = delete rid (running_containers self)
    ∧ daemon_calls runner =
        daemon_calls self
        ++ [ContainersRun c; ContainerStop c; ContainerRemove c].
Proof.
  intros Hl Hw. unfold run_agent, run_agent_body. rewrite Hl. simpl.
  rewrite Hw. simpl. eexists. split; [reflexivity|]. simpl.
  split; [by rewrite delete_insert_eq|]. by rewrite <- app_assoc.
Qed.

(** C1 fails on the code: when the deadline passes before the container
    exits, [run_agent] catches the [asyncio.TimeoutError] itself and returns
    an unsuccessful result, so [execute_agent_run] records the run as
    FAILED, not as TIMEOUT, with the time-out message as its error. *)
Theorem timed_out_run_is_failed (self : DockerRunner) (env : SandboxEnv)
    (c : string) (pre post : list poll) (p : poll) (t_start t_end : Z)
    (r : RunResult) :
  launch env = inr c →
  polls env = pre ++ p :: post →
  forallb (still_running (timeout self)) pre = true →
  timeout self ≤ elapsed p →
  ∃ r', execute_agent_run json_loads self env t_start t_end r = Some r'
        ∧ status r' = FAILED
        ∧ status r' ≠ TIMEOUT
        ∧ error r' = JStr ("Execution timed out after "
                           +:+ pretty (timeout self) +:+ " seconds").
Proof.
  intros Hl Hpolls Hpre Hp.
  pose proof (wait_times_out (timeout self) pre post p Hpre Hp) as Hw.
  rewrite <- Hpolls in Hw.
  destruct (run_agent_timeout self (run_id r) c env _ Hl Hw)
    as (runner & Hrun & _).
  unfold execute_agent_run. rewrite Hrun. eexists. split; [reflexivity|].
  simpl. by repeat split.
Qed.

(** ** Sandbox manager: the output of a finished container *)








(** ** From the container's exit to the run's status *)

(** The dict [run_agent] returns for a container that exited and whose logs
    and output were read. *)
Lemma run_agent_exited (self : DockerRunner) (rid c : string)
    (env : SandboxEnv) (w : waited) (logs : string) (doc : json) :
  launch env = inr c →
  _wait_for_container (polls env) (timeout self) = Some (ret w) →
  container_logs env = inr logs →
  collect_output json_loads (output_file env) logs = ret doc →
  ∃ runner,
    run_agent json_loads self rid env =
      Some (ret [("success", JBool (waited_exit_code w =? 0));
                 ("output", doc);
                 ("logs", JList (JStr <$> split_lines logs));
                 ("execution_time", JNum (execution_time env));
                 ("exit_code", JNum (waited_exit_code w))], runner).
Proof.
  intros Hl Hw Hlogs Hout. unfold run_agent, run_agent_body.
  rewrite Hl. simpl. rewrite Hw. simpl. rewrite Hlogs. simpl.
  rewrite Hout. simpl. eauto.
Qed.


(** A successful result is only built from a zero exit code. *)
Lemma run_agent_success (self runner : DockerRunner) (rid : string)
    (env : SandboxEnv) (outcome : raising (list (string * json))) :
  run_agent json_loads self rid env = Some (outcome, runner) →
  (∃ result, outcome = inr result
             ∧ truthy (dict_get_default "success" JNull result) = true) →
  ∃ c w, launch env = inr c
         ∧ _wait_for_container (polls env) (timeout self) = Some (ret w)
         ∧ waited_exit_code w = 0.
Proof.
  unfold run_agent, run_agent_body.
  destruct (launch env) as [e|c]; simpl.
  { destruct e; simpl; intros [= <- _] (result & [= <-] & Hs); discriminate. }
  destruct (_wait_for_container _ _) as [[e|w]|]; simpl; [| |done].
  { destruct e; simpl; intros [= <- _] (result & [= <-] & Hs); discriminate. }
  destruct (container_logs env) as [e|logs]; simpl.
  { destruct e; simpl; intros [= <- _] (result & [= <-] & Hs); discriminate. }
  destruct (collect_output _ _ _) as [e|doc]; simpl.
  { destruct e; simpl; intros [= <- _] (result & [= <-] & Hs); discriminate. }
  intros [= <- _] (result & [= <-] & Hs). simpl in Hs.
  exists c, w. repeat split. by apply Z.eqb_eq.
Qed.

(** The status [execute_agent_run] records is COMPLETED exactly when the
    result of [run_agent] says success, FAILED otherwise. *)
Lemma execute_agent_run_status (self : DockerRunner) (env : SandboxEnv)
    (t_start t_end : Z) (r r' : RunResult) :
  execute_agent_run json_loads self env t_start t_end r = Some r' →
  ∃ result runner,
    run_agent json_loads self (run_id r) env = Some (ret result, runner)
    ∧ status r' = (if truthy (dict_get_default "success" JNull result)
                   then COMPLETED else FAILED)
    ∧ output r' = dict_get_default "output" (JDict []) result.
Proof.
  unfold execute_agent_run.
  destruct (run_agent _ _ _ _) as [[outcome runner]|] eqn:Hrun; [|done].
  destruct (run_agent_returns _ _ _ _ _ Hrun) as [result ->].
  intros [= <-]. exists result, runner. by repeat split.
Qed.

(** C9, amended: for a run whose container exits and whose logs and output
    document are then read without an exception, the recorded status is
    COMPLETED if and only if the exit code is 0, and FAILED otherwise,
    whatever the output document says; a COMPLETED run always comes from an
    exit code of 0. *)
Theorem completed_iff_exit_code_zero (self : DockerRunner) (env : SandboxEnv)
    (t_start t_end : Z) (r r' : RunResult) :
  execute_agent_run json_loads self env t_start t_end r = Some r' →
  (status r' = COMPLETED →
     ∃ c w, launch env = inr c
            ∧ _wait_for_container (polls env) (timeout self) = Some (ret w)
            ∧ waited_exit_code w = 0)
  ∧ (∀ c w logs doc,
       launch env = inr c →
       _wait_for_container (polls env) (timeout self) = Some (ret w) →
       container_logs env = inr logs →
       collect_output json_loads (output_file env) logs = ret doc →
       (status r' = COMPLETED ↔ waited_exit_code w = 0)
       ∧ (status r' = FAILED ↔ waited_exit_code w ≠ 0)
       ∧ output r' = doc).
Proof.
  intros Hexec.
  destruct (execute_agent_run_status _ _ _ _ _ _ Hexec)
    as (result & runner & Hrun & Hst & Hout).
  split.
  - intros Hc. apply (run_agent_success _ _ _ _ _ Hrun).
    exists result. split; [done|].
    rewrite Hc in Hst. by destruct (truthy _).
  - intros c w logs doc Hl Hw Hlogs Hdoc.
    destruct (run_agent_exited self (run_id r) c env w logs doc Hl Hw Hlogs Hdoc)
      as [runner' Hrun'].
    rewrite Hrun in Hrun'. injection Hrun' as -> _.
    rewrite Hst, Hout. simpl.
    destruct (Z.eqb_spec (waited_exit_code w) 0) as [Hz|Hz];
      repeat split; try done.
Qed.

(** The document the bootstrap script writes when the agent raises has its
    success flag off, the script still exits with 0, and a run whose
    container exits with 0 leaving that document is COMPLETED. *)
Lemma agent_failure_still_completed (self : DockerRunner) (env : SandboxEnv)
    (has_files : bool) (script : ScriptEnv) (msg trace text c logs : string)
    (w : waited) (t_start t_end : Z) (r : RunResult) :
  import_agent script = Imported true →
  agent_main script = AgentRaises msg trace →
  launch env = inr c →
  _wait_for_container (polls env) (timeout self) = Some (ret w) →
  waited_exit_code w = script_exit (runner_script has_files script) →
  container_logs env = inr logs →
  output_file env = Some text →
  (∀ doc, written (runner_script has_files script) = Some (inr doc) →
          json_loads text = inr doc) →
  ∃ r' doc,
    execute_agent_run json_loads self env t_start t_end r = Some r'
    ∧ status r' = COMPLETED
    ∧ output r' = JDict doc
    ∧ dict_get "success" doc = Some (JBool false).
Proof.
  intros Himp Hagent Hl Hw Hcode Hlogs Hfile Hdoc.
  unfold runner_script in *. rewrite Himp, Hagent in *. simpl in *.
  assert (collect_output json_loads (output_file env) logs
          = ret (JDict [("error", JStr msg); ("traceback", JStr trace);
                        ("success", JBool false)])) as Hout.
  { rewrite Hfile. unfold collect_output, loads.
    by rewrite (Hdoc _ eq_refl). }
  destruct (run_agent_exited self (run_id r) c env w logs _ Hl Hw Hlogs Hout)
    as [runner Hrun].
  unfold execute_agent_run. rewrite Hrun, Hcode.
  eexists _, _. repeat split.
Qed.

(** ** The bootstrap script *)



(** What the script never does: leave without a complete document and with
    exit status 0 once the entry point has returned or raised an
    [Exception]; when [json.dump] raises, the file is left incomplete and
    the exit status is 1. *)
Lemma bootstrap_dump_failure (has_files : bool) (env : ScriptEnv)
    (partial : string) (sized : bool) :
  import_agent env = Imported true →
  agent_main env = AgentReturnsOther (inl partial) sized →
  runner_script has_files env = mkScriptRun (Some (inl partial)) 1.
Proof. unfold runner_script. by intros -> ->. Qed.

(** ** Inference proxy *)

Lemma unregister_run_lookup (rid : string)
    (run_configs : gmap string RunConfig) :
  (unregister_run rid run_configs).2 !! rid = None.
Proof.
  unfold unregister_run.
  destruct (run_configs !! rid) eqn:Hrid; simpl; [|done].
  apply lookup_delete_eq.
Qed.

Lemma register_run_lookup (rid url key : string)
    (run_configs : gmap string RunConfig) :
  register_run rid url key run_configs !! rid = Some (mkRunConfig url key).
Proof. apply lookup_insert_eq. Qed.

Lemma truthy_str (s : string) : truthy (JStr s) = true ↔ s ≠ "".
Proof.
  simpl. rewrite negb_true_iff. split.
  - intros H ->. by rewrite String.eqb_refl in H.
  - intros H. by apply String.eqb_neq.
Qed.

(** C6: a call tagged with a registered run id is sent to that run's own
    endpoint with that run's own credential, whatever the process defaults
    are; with no configuration registered for the run id, which is also the
    case after [unregister_run], it is sent to the default endpoint with the
    default credential; and with no default credential either, it fails
    with status 401. *)
Theorem inference_routing (environ : Environ) (request : InferenceRequest)
    (run_configs : gmap string RunConfig) :
  (∀ config,
     run_configs !! request_run_id request = Some config →
     ∃ post, handle_inference environ request run_configs = inr post
             ∧ post_url post = inference_url config
             ∧ authorization post = authorization_header config)
  ∧ (∀ key,
       run_configs !! request_run_id request = None →
       API_KEY environ = Some key → key ≠ "" →
       ∃ post, handle_inference environ request run_configs = inr post
               ∧ post_url post
                 = default "https://api.openai.com/v1/chat/completions"
                     (INFERENCE_URL environ)
               ∧ authorization post
                 = authorization_header (mkRunConfig (post_url post) key))
  ∧ (run_configs !! request_run_id request = None →
     API_KEY environ = None ∨ API_KEY environ = Some "" →
     ∃ e, handle_inference environ request run_configs = inl e
          ∧ status_code e = 401)
  ∧ (unregister_run (request_run_id request) run_configs).2
      !! request_run_id request = None
  ∧ (∀ url key,
       register_run (request_run_id request) url key run_configs
         !! request_run_id request = Some (mkRunConfig url key)).
Proof.
  unfold handle_inference, resolve_config. repeat split.
  - intros config ->. eauto.
  - intros key -> -> Hkey%truthy_str.
    change (default "" (Some key)) with key. rewrite Hkey. simpl. eauto.
  - intros -> [-> | ->]; simpl; eauto.
  - apply unregister_run_lookup.
  - intros url key. apply register_run_lookup.
Qed.

(** ** Deleting a run *)

(** [stop_run] on an untracked run changes nothing. *)
Lemma stop_run_untracked (stop_raises : bool) (rid : string)
    (self : DockerRunner) :
  running_containers self !! rid = None →
  stop_run stop_raises rid self = (ret tt, self).
Proof. unfold stop_run. by intros ->. Qed.

(** [stop_run] on a tracked run asks the daemon to stop its container and
    forgets it, whether or not the stop raises. *)
Lemma stop_run_tracked (stop_raises : bool) (rid c : string)
    (self : DockerRunner) :
  running_containers self !! rid = Some c →
  ∃ rest,
    stop_run stop_raises rid self =
      (ret tt, mkDockerRunner (timeout self)
                 (delete rid (running_containers self))
                 (daemon_calls self ++ ContainerStop c :: rest)).
Proof. unfold stop_run. intros ->. eauto. Qed.

(** C7: deleting a run that is Queued or Running first requests a stop of
    its sandbox and then removes the record, whatever the stop does, raising
    included; deleting a run in a terminal status removes the record and
    leaves the sandbox manager as it was; deleting an id that is not
    registered fails with status 404 and changes nothing. *)
Theorem delete_run_behaviour
    (stop : string → DockerRunner → raising unit * DockerRunner)
    (rid : string) (app : App) :
  (∀ r, get_run_status rid app = inr r →
        status r = QUEUED ∨ status r = RUNNING →
        ∃ msg,
          delete_run_with stop rid app =
            (inr msg,
             mkApp (records app) (runs_db app ∖ {[rid]})
               (stop rid (docker_runner app)).2,
             [StopRequested rid; RecordRemoved rid]))
  ∧ (∀ r, get_run_status rid app = inr r →
          is_terminal (status r) = true →
          ∃ msg,
            delete_run_with stop rid app =
              (inr msg,
               mkApp (records app) (runs_db app ∖ {[rid]}) (docker_runner app),
               [RecordRemoved rid]))
  ∧ (∀ e, get_run_status rid app = inl e →
          ∃ e', delete_run_with stop rid app = (inl e', app, [])
                ∧ status_code e' = 404).
Proof.
  unfold delete_run_with. repeat split.
  - intros r -> [Hst | Hst]; rewrite Hst; simpl; eauto.
  - intros r -> Hst. destruct (status r); try done; simpl; eauto.
  - intros e ->. eauto.
Qed.

(** ** The run state machine *)

Lemma submit_run_resolve_status (files_zip : option (string + list (string * string)))
    (download : string + string) (now : Z) (r : RunResult) :
  status (submit_run_resolve files_zip download now r).1 = FAILED
  ∨ status (submit_run_resolve files_zip download now r).1 = QUEUED.
Proof.
  unfold submit_run_resolve.
  destruct files_zip as [[msg|files]|], download as [msg'|path]; simpl; auto.
Qed.

Lemma execute_agent_run_finish_status (outcome : raising (list (string * json)))
    (now : Z) (r : RunResult) :
  status_edge RUNNING (status (execute_agent_run_finish outcome now r)) = true.
Proof.
  destruct outcome as [[msg|msg]|result]; simpl; [done..|].
  by destruct (truthy _).
Qed.

(** The record looked at is not the one the event works on. *)
Local Ltac untouched :=
  match goal with
  | |- context [records ?app !! ?rid] =>
      destruct (records app !! rid); [eauto | done]
  end.

(** One event changes the status of a record along an edge of the state
    machine, or not at all; a record appears with status PENDING and is
    never dropped. *)
Lemma step_status (app app' : App) (ev : event) (rid : string) :
  step json_loads app ev = Some app' →
  match records app !! rid with
  | None =>
      ∀ r', records app' !! rid = Some r' → status r' = PENDING
  | Some r =>
      ∃ r', records app' !! rid = Some r'
            ∧ (r' = r ∨ status_edge (status r) (status r') = true)
  end.
Proof.
  destruct ev as [rid0 agent problem now | rid0 files_zip download now
                  | rid0 now | rid0 env now | rid0 stop_raises]; simpl.
  - destruct (records app !! rid0) eqn:Hrid0; [done|]. intros [= <-]. simpl.
    destruct (decide (rid0 = rid)) as [->|Hne].
    + rewrite Hrid0, lookup_insert_eq. by intros r' [= <-].
    + rewrite lookup_insert_ne by done.
      untouched.
  - destruct (records app !! rid0) as [r0|] eqn:Hrid0; [|done].
    destruct (decide (status r0 = PENDING)) as [Hst|]; [|done].
    intros [= <-]. simpl.
    destruct (decide (rid0 = rid)) as [->|Hne].
    + rewrite Hrid0, lookup_insert_eq. eexists. split; [done|]. right.
      rewrite Hst.
      by destruct (submit_run_resolve_status files_zip download now r0)
        as [-> | ->].
    + rewrite lookup_insert_ne by done.
      untouched.
  - destruct (records app !! rid0) as [r0|] eqn:Hrid0; [|done].
    destruct (decide (status r0 = QUEUED)) as [Hst|]; [|done].
    case_bool_decide; intros [= <-]; simpl.
    + destruct (decide (rid0 = rid)) as [->|Hne].
      * rewrite Hrid0, lookup_insert_eq. eexists. split; [done|]. right.
        by rewrite Hst.
      * rewrite lookup_insert_ne by done.
        untouched.
    + untouched.
  - destruct (records app !! rid0) as [r0|] eqn:Hrid0; [|done].
    destruct (decide (status r0 = RUNNING)) as [Hst|]; [|done].
    destruct (run_agent _ _ _ _) as [[outcome runner]|]; [|done].
    intros [= <-]. simpl.
    destruct (decide (rid0 = rid)) as [->|Hne].
    + rewrite Hrid0, lookup_insert_eq. eexists. split; [done|]. right.
      rewrite Hst. apply execute_agent_run_finish_status.
    + rewrite lookup_insert_ne by done.
      untouched.
  - intros [= <-]. unfold deleted, delete_run, delete_run_with.
    destruct (get_run_status rid0 app) as [e|r0]; simpl.
    + untouched.
    + case_bool_decide; simpl; untouched.
Qed.

(** A record in a terminal status is left as it is by every event. *)
Lemma step_terminal_frozen (app app' : App) (ev : event) (rid : string)
    (r : RunResult) :
  step json_loads app ev = Some app' →
  records app !! rid = Some r → is_terminal (status r) = true →
  records app' !! rid = Some r.
Proof.
  intros Hstep Hr Hterm. pose proof (step_status _ _ _ rid Hstep) as Hs.
  rewrite Hr in Hs. destruct Hs as (r' & Hr' & [-> | Hedge]); [done|].
  by destruct (status r).
Qed.

Lemma execution_head (app : App) (evs : list event) (states : list App) :
  execution json_loads app evs = Some states →
  ∃ rest, states = app :: rest.
Proof.
  destruct evs as [|ev evs]; simpl.
  - intros [= <-]. eauto.
  - destruct (step _ _ _); [|done].
    destruct (execution _ _ _); simpl; [|done]. intros [= <-]. eauto.
Qed.

(** Two states that follow each other in an execution are one event
    apart. *)
Lemma execution_adjacent (evs : list event) (app : App)
    (pre post : list App) (a b : App) :
  execution json_loads app evs = Some (pre ++ a :: b :: post) →
  ∃ ev, step json_loads a ev = Some b.
Proof.
  revert app pre. induction evs as [|ev evs IH]; intros app pre; simpl.
  - intros [= H]. by destruct pre as [|? [|? ?]].
  - destruct (step _ _ _) as [app'|] eqn:Hstep; [|done].
    destruct (execution _ _ _) as [states|] eqn:Hexec; simpl; [|done].
    intros [= H]. destruct pre as [|x pre]; simpl in H.
    + injection H as <- ->.
      destruct (execution_head _ _ _ Hexec) as [rest [= <- _]]. eauto.
    + injection H as _ ->. by eapply IH.
Qed.

(** Extending a status sequence along an edge gives a status sequence. *)
Lemma status_paths_extend (seen : list RunStatus) (a b : RunStatus) :
  seen ∈ status_paths → last seen = Some a → status_edge a b = true →
  seen ++ [b] ∈ status_paths ∧ a ≠ b.
Proof.
  unfold status_paths. intros Hseen Hlast Hedge.
  set_unfold.
  destruct Hseen as [->|[->|[->|[->|[->|[->|[->|[]]]]]]]];
    injection Hlast as <-; destruct b; try discriminate Hedge; simpl;
    split; try discriminate; tauto.
Qed.

Lemma step_tracks (app app' : App) (ev : event) (rid : string)
    (seen : list RunStatus) :
  step json_loads app ev = Some app' →
  tracks seen (records app !! rid) →
  tracks (observe rid seen app') (records app' !! rid).
Proof.
  intros Hstep Htr. pose proof (step_status _ _ _ rid Hstep) as Hs.
  unfold tracks, observe in *.
  destruct (records app !! rid) as [r|].
  - destruct Htr as [Hseen Hlast].
    destruct Hs as (r' & -> & [-> | Hedge]).
    + by rewrite decide_True.
    + destruct (status_paths_extend seen _ _ Hseen Hlast Hedge) as [Hin Hne].
      rewrite decide_False by congruence.
      split; [done|]. by rewrite last_snoc.
  - subst seen. destruct (records app' !! rid) as [r'|]; [|done].
    rewrite (Hs r' eq_refl). simpl. split; [|done].
    unfold status_paths. set_solver.
Qed.

(** Along an execution the status sequence of a record stays one of
    [status_paths]. *)
Lemma execution_tracks (rid : string) (evs : list event) (app : App)
    (rest : list App) (seen : list RunStatus) :
  execution json_loads app evs = Some (app :: rest) →
  tracks seen (records app !! rid) →
  foldl (observe rid) seen rest = [] ∨ foldl (observe rid) seen rest ∈ status_paths.
Proof.
  revert app rest seen. induction evs as [|ev evs IH]; intros app rest seen; simpl.
  - intros [= <-] Htr. simpl. unfold tracks in Htr.
    destruct (records app !! rid); [right; apply Htr | by left].
  - destruct (step _ _ _) as [app'|] eqn:Hstep; [|done].
    destruct (execution _ _ _) as [states|] eqn:Hexec; simpl; [|done].
    intros [= <-] Htr.
    destruct (execution_head _ _ _ Hexec) as [rest' ->]. simpl.
    apply (IH app'); [done|]. by eapply step_tracks.
Qed.

Lemma status_sequence_paths (evs : list event) (states : list App)
    (rid : string) :
  execution json_loads init evs = Some states →
  status_sequence rid states = [] ∨ status_sequence rid states ∈ status_paths.
Proof.
  intros Hexec. destruct (execution_head _ _ _ Hexec) as [rest ->].
  unfold status_sequence. simpl.
  change (observe rid [] init) with (@nil RunStatus).
  by apply (execution_tracks rid evs init).
Qed.

(** C3: the status values a run record takes, in order, are
    PENDING, QUEUED, RUNNING and a terminal status, or PENDING and FAILED,
    up to where the run has got; a record that has reached a terminal status
    has gone through exactly one of the two sequences, and no later event
    changes it. *)
Theorem status_order (evs : list event) (states : list App) (rid : string) :
  execution json_loads init evs = Some states →
  (status_sequence rid states `prefix_of` [PENDING; FAILED]
   ∨ ∃ t, is_terminal t = true
          ∧ status_sequence rid states
              `prefix_of` [PENDING; QUEUED; RUNNING; t])
  ∧ (∀ t, last (status_sequence rid states) = Some t →
          is_terminal t = true →
          status_sequence rid states = [PENDING; FAILED]
          ∨ status_sequence rid states = [PENDING; QUEUED; RUNNING; t])
  ∧ (∀ pre a b post r,
       states = pre ++ a :: b :: post →
       records a !! rid = Some r → is_terminal (status r) = true →
       records b !! rid = Some r).
Proof.
  intros Hexec. pose proof (status_sequence_paths evs states rid Hexec) as Hseq.
  assert (status_sequence rid states ∈ [] :: status_paths) as Hin.
  { apply elem_of_cons. destruct Hseq as [-> | Hseq]; auto. }
  clear Hseq. unfold status_paths in Hin.
  generalize dependent (status_sequence rid states). intros seq Hin.
  repeat (apply elem_of_cons in Hin as [-> | Hin]);
    [..|by apply elem_of_nil in Hin].
  all: split; [|split].
  all: try (intros pre a b post r -> Hr Hterm;
            destruct (execution_adjacent _ _ _ _ _ _ Hexec) as [ev Hstep];
            by eapply step_terminal_frozen).
  all: try (intros t Hlast Hterm; simpl in Hlast; simplify_eq; auto).
  - left. by exists [PENDING; FAILED].
  - left. by exists [FAILED].
  - left. by exists [].
  - right. exists FAILED. split; [done|]. by exists [RUNNING; FAILED].
  - right. exists FAILED. split; [done|]. by exists [FAILED].
  - right. exists COMPLETED. split; [done|]. by exists [].
  - right. exists FAILED. split; [done|]. by exists [].
  - right. exists TIMEOUT. split; [done|]. by exists [].
Qed.

(** ** Timing fields and reachable statuses *)

Lemma submit_run_create_ok (rid agent problem : string) (now : Z) :
  record_ok (submit_run_create rid agent problem now).
Proof. by repeat split. Qed.

Lemma submit_run_resolve_ok (files_zip : option (string + list (string * string)))
    (download : string + string) (now : Z) (r : RunResult) :
  status r = PENDING → record_ok r →
  record_ok (submit_run_resolve files_zip download now r).1.
Proof.
  unfold record_ok. intros -> (Hs & Hc & Hd). unfold submit_run_resolve.
  destruct files_zip as [[msg|files]|], download as [msg'|path]; simpl;
    eauto 10.
Qed.

Lemma execute_agent_run_start_ok (now : Z) (r : RunResult) :
  status r = QUEUED → record_ok r →
  record_ok (execute_agent_run_start now r).
Proof.
  unfold record_ok. intros -> (Hs & Hc & Hd). simpl. eauto.
Qed.

Lemma execute_agent_run_finish_ok (result : list (string * json)) (now : Z)
    (r : RunResult) :
  status r = RUNNING → record_ok r →
  record_ok (execute_agent_run_finish (inr result) now r).
Proof.
  unfold record_ok. intros -> ([s Hs] & Hc & Hd). simpl. rewrite Hs.
  destruct (truthy _); eauto 10.
Qed.

(** Every event keeps [record_ok] on every record. *)
Lemma step_record_ok (app app' : App) (ev : event) :
  step json_loads app ev = Some app' →
  (∀ rid r, records app !! rid = Some r → record_ok r) →
  ∀ rid r, records app' !! rid = Some r → record_ok r.
Proof.
  intros Hstep Hok rid.
  destruct ev as [rid0 agent problem now | rid0 files_zip download now
                  | rid0 now | rid0 env now | rid0 stop_raises];
    simpl in Hstep.
  - destruct (records app !! rid0) eqn:Hrid0; [done|].
    injection Hstep as <-. simpl. intros r.
    destruct (decide (rid0 = rid)) as [->|Hne].
    + rewrite lookup_insert_eq. intros [= <-]. apply submit_run_create_ok.
    + rewrite lookup_insert_ne by done. apply Hok.
  - destruct (records app !! rid0) as [r0|] eqn:Hrid0; [|done].
    destruct (decide (status r0 = PENDING)) as [Hst|]; [|done].
    injection Hstep as <-. simpl. intros r.
    destruct (decide (rid0 = rid)) as [->|Hne].
    + rewrite lookup_insert_eq. intros [= <-].
      apply submit_run_resolve_ok; eauto.
    + rewrite lookup_insert_ne by done. apply Hok.
  - destruct (records app !! rid0) as [r0|] eqn:Hrid0; [|done].
    destruct (decide (status r0 = QUEUED)) as [Hst|]; [|done].
    case_bool_decide; injection Hstep as <-; [|apply Hok].
    simpl. intros r.
    destruct (decide (rid0 = rid)) as [->|Hne].
    + rewrite lookup_insert_eq. intros [= <-].
      apply execute_agent_run_start_ok; eauto.
    + rewrite lookup_insert_ne by done. apply Hok.
  - destruct (records app !! rid0) as [r0|] eqn:Hrid0; [|done].
    destruct (decide (status r0 = RUNNING)) as [Hst|]; [|done].
    destruct (run_agent _ _ _ _) as [[outcome runner]|] eqn:Hrun; [|done].
    destruct (run_agent_returns _ _ _ _ _ Hrun) as [result ->].
    injection Hstep as <-. simpl. intros r.
    destruct (decide (rid0 = rid)) as [->|Hne].
    + rewrite lookup_insert_eq. intros [= <-].
      apply execute_agent_run_finish_ok; eauto.
    + rewrite lookup_insert_ne by done. apply Hok.
  - injection Hstep as <-. unfold deleted, delete_run, delete_run_with.
    destruct (get_run_status rid0 app) as [e|r0]; simpl; [apply Hok|].
    case_bool_decide; simpl; apply Hok.
Qed.

Lemma run_record_ok (evs : list event) (app app' : App) :
  run json_loads app evs = Some app' →
  (∀ rid r, records app !! rid = Some r → record_ok r) →
  ∀ rid r, records app' !! rid = Some r → record_ok r.
Proof.
  revert app. induction evs as [|ev evs IH]; intros app; simpl.
  - by intros [= <-].
  - destruct (step _ _ _) as [app1|] eqn:Hstep; [|done].
    intros Hrun Hok. apply (IH app1 Hrun). by eapply step_record_ok.
Qed.

Lemma reachable_record_ok (evs : list event) (app : App) (rid : string)
    (r : RunResult) :
  run json_loads init evs = Some app →
  records app !! rid = Some r → record_ok r.
Proof.
  intros Hrun. apply (run_record_ok evs init app Hrun).
  intros rid' r'. unfold init. simpl. by rewrite lookup_empty.
Qed.

(** Reads the timing fields off [record_ok] and closes what is left. *)
Local Ltac timing_fields Hok :=
  repeat match type of Hok with
         | False => destruct Hok
         | _ ∨ _ => destruct Hok as [Hok | Hok]
         | _ => fail
         end;
  repeat match goal with
         | H : _ ∧ _ |- _ => destruct H
         | H : ∃ _, _ |- _ => destruct H
         | H : is_Some (_ _) |- _ => destruct H
         end;
  repeat match goal with
         | H : _ = _ |- _ => rewrite H
         end;
  repeat split; intros;
  repeat match goal with
         | H : is_Some None |- _ => by destruct H
         | H : _ ∧ _ |- _ => destruct H
         end;
  simplify_eq; eauto.

(** C4: in every state the engine reaches, a run record has [completed_at]
    set if and only if its status is terminal, and [duration_seconds] set if
    and only if both [started_at] and [completed_at] are set, in which case
    it is their difference. *)
Theorem timestamps_invariant (evs : list event) (app : App) (rid : string)
    (r : RunResult) :
  run json_loads init evs = Some app →
  records app !! rid = Some r →
  (is_Some (completed_at r) ↔ is_terminal (status r) = true)
  ∧ (is_Some (duration_seconds r)
     ↔ is_Some (started_at r) ∧ is_Some (completed_at r))
  ∧ (∀ d s c, duration_seconds r = Some d → started_at r = Some s →
              completed_at r = Some c → d = c - s).
Proof.
  intros Hrun Hr. pose proof (reachable_record_ok evs app rid r Hrun Hr) as Hok.
  unfold record_ok in Hok.
  destruct (status r); simpl; timing_fields Hok.
Qed.

(** C10: no record of a reachable state has the status CANCELLED; deleting
    a registered run takes its key out of the registry and leaves the record
    itself, status included, as it was. *)
Theorem never_cancelled (evs : list event) (app : App) :
  run json_loads init evs = Some app →
  (∀ rid r, records app !! rid = Some r → status r ≠ CANCELLED)
  ∧ (∀ rid stop_raises r,
       get_run_status rid app = inr r →
       records (deleted stop_raises rid app) !! rid = Some r
       ∧ (rid ∉ runs_db (deleted stop_raises rid app))
       ∧ is_inl (get_run_status rid (deleted stop_raises rid app))).
Proof.
  intros Hrun. split.
  - intros rid r Hr Hst.
    pose proof (reachable_record_ok evs app rid r Hrun Hr) as Hok.
    unfold record_ok in Hok. by rewrite Hst in Hok.
  - intros rid stop_raises r Hget.
    assert (rid ∉ runs_db app ∖ {[rid]}) as Hgone.
    { rewrite elem_of_difference, elem_of_singleton. tauto. }
    unfold deleted, delete_run, delete_run_with.
    rewrite Hget. unfold get_run_status in *.
    case_bool_decide; [|done].
    destruct (records app !! rid) as [r0|] eqn:Hr0; [|done].
    injection Hget as ->.
    case_bool_decide; simpl; rewrite Hr0;
      (split; [done|]); (split; [done|]);
      by rewrite bool_decide_eq_false_2 by done.
Qed.


(** * More of the engine: properties *)

(** ** [stop_run] and [cleanup] *)

Lemma stop_run_forgets (stop_raises : bool) (rid : string)
    (self : DockerRunner) :
  running_containers (stop_run stop_raises rid self).2
  = delete rid (running_containers self).
Proof.
  unfold stop_run. destruct (running_containers self !! rid) eqn:Hrid; simpl.
  - done.
  - symmetry. by apply delete_id.
Qed.

(** X1: [stop_run] forgets the run and no other, and is idempotent: a second
    call for the same run changes nothing and sends nothing to the daemon. *)
Theorem stop_run_idempotent (first second : bool) (rid : string)
    (self : DockerRunner) :
  running_containers (stop_run first rid self).2 !! rid = None
  ∧ (∀ other, other ≠ rid →
       running_containers (stop_run first rid self).2 !! other
       = running_containers self !! other)
  ∧ stop_run second rid (stop_run first rid self).2
    = (ret tt, (stop_run first rid self).2).
Proof.
  assert (running_containers (stop_run first rid self).2 !! rid = None) as Hgone.
  { rewrite stop_run_forgets. apply lookup_delete_eq. }
  split; [done|]. split.
  - intros other Hne. rewrite stop_run_forgets. by apply lookup_delete_ne.
  - by apply stop_run_untracked.
Qed.

Lemma stop_run_calls (stop_raises : bool) (rid : string)
    (self : DockerRunner) :
  stop_requests (daemon_calls (stop_run stop_raises rid self).2)
  = stop_requests (daemon_calls self)
    ++ option_list (running_containers self !! rid).
Proof.
  unfold stop_run, stop_requests.
  destruct (running_containers self !! rid) as [c|]; simpl.
  - rewrite omap_app. simpl. by destruct stop_raises.
  - by rewrite app_nil_r.
Qed.

Lemma cleanup_cons (stop_raises : string → bool) (rid : string)
    (keys : list string) (self : DockerRunner) :
  cleanup stop_raises (rid :: keys) self
  = cleanup stop_raises keys (stop_run (stop_raises rid) rid self).2.
Proof. reflexivity. Qed.

Lemma cleanup_containers (stop_raises : string → bool) (keys : list string)
    (self : DockerRunner) :
  running_containers (cleanup stop_raises keys self)
  = foldl (λ m rid, delete rid m) (running_containers self) keys.
Proof.
  revert self. induction keys as [|rid keys IH]; intros self; [done|].
  rewrite cleanup_cons, IH. simpl. by rewrite stop_run_forgets.
Qed.

Lemma foldl_delete_lookup (keys : list string) (m : gmap string string)
    (rid : string) :
  foldl (λ m rid, delete rid m) m keys !! rid
  = if bool_decide (rid ∈ keys) then None else m !! rid.
Proof.
  revert m. induction keys as [|k keys IH]; intros m; [done|].
  simpl. rewrite IH. destruct (decide (rid = k)) as [->|Hne].
  - rewrite lookup_delete_eq. rewrite (bool_decide_eq_true_2 (k ∈ k :: keys));
      [by case_bool_decide | by left].
  - rewrite lookup_delete_ne by done.
    destruct (bool_decide (rid ∈ keys)) eqn:Hin.
    + apply bool_decide_eq_true_1 in Hin.
      by rewrite bool_decide_eq_true_2 by by right.
    + apply bool_decide_eq_false_1 in Hin.
      rewrite bool_decide_eq_false_2; [done|].
      intros [?|?]%elem_of_cons; done.
Qed.

Lemma cleanup_stops (stop_raises : string → bool) (keys : list string)
    (self : DockerRunner) (rid c : string) :
  rid ∈ keys → running_containers self !! rid = Some c →
  c ∈ stop_requests (daemon_calls (cleanup stop_raises keys self)).
Proof.
  assert (∀ keys self c,
            c ∈ stop_requests (daemon_calls self) →
            c ∈ stop_requests (daemon_calls (cleanup stop_raises keys self)))
    as Hkeep.
  { clear. intros keys. induction keys as [|k keys IH]; intros self c Hc;
      [done|].
    rewrite cleanup_cons. apply IH. rewrite stop_run_calls.
    apply elem_of_app. by left. }
  revert self. induction keys as [|k keys IH]; intros self Hin Hc.
  { by apply elem_of_nil in Hin. }
  rewrite cleanup_cons. destruct (decide (rid = k)) as [->|Hne].
  - apply Hkeep. rewrite stop_run_calls, Hc. apply elem_of_app. right.
    by left.
  - apply IH.
    + apply elem_of_cons in Hin as [?|?]; done.
    + rewrite stop_run_forgets. by rewrite lookup_delete_ne.
Qed.

(** X2: after [cleanup] over all tracked runs no container is tracked, and
    the daemon was asked to stop every container that was. *)
Theorem cleanup_stops_everything (stop_raises : string → bool)
    (keys : list string) (self : DockerRunner) :
  list_to_set keys = dom (running_containers self) →
  running_containers (cleanup stop_raises keys self) = ∅
  ∧ (∀ rid c, running_containers self !! rid = Some c →
       c ∈ stop_requests (daemon_calls (cleanup stop_raises keys self))).
Proof.
  intros Hdom.
  assert (∀ rid, rid ∈ keys ↔ is_Some (running_containers self !! rid))
    as Hkeys.
  { intros rid. by rewrite <- elem_of_dom, <- Hdom, elem_of_list_to_set. }
  split.
  - apply map_eq. intros rid. rewrite cleanup_containers, foldl_delete_lookup.
    rewrite lookup_empty. case_bool_decide as Hin; [done|].
    destruct (running_containers self !! rid) eqn:Hrid; [|done].
    exfalso. apply Hin, Hkeys. eauto.
  - intros rid c Hc. apply (cleanup_stops _ _ _ rid); [|done].
    apply Hkeys. eauto.
Qed.

(** ** [_wait_for_container] *)

(** X3: [_wait_for_container] returns exactly when some poll made before
    the deadline shows the container exited or dead while every earlier
    poll, also before the deadline, showed it otherwise; what it returns is
    the status and exit code of that poll. *)
Theorem wait_returns_first_exit (timeout : Z) (qs : list poll) (w : waited) :
  _wait_for_container qs timeout = Some (ret w)
  ↔ ∃ pre p post,
      qs = pre ++ p :: post
      ∧ forallb (still_running timeout) pre = true
      ∧ elapsed p < timeout
      ∧ reload p = Reloaded (waited_status w) (waited_exit_code w)
      ∧ has_exited (waited_status w) = true.
Proof.
  split.
  - induction qs as [|q qs IH]; [done|]. simpl.
    destruct (elapsed q <? timeout) eqn:Ht; [|done].
    destruct (reload q) as [e|st code] eqn:Hr; [done|].
    destruct (has_exited st) eqn:Hst.
    + intros [= <-]. exists [], q, qs. simpl.
      repeat split; try done. by apply Z.ltb_lt.
    + intros Hw. destruct (IH Hw) as (pre & p & post & -> & Hpre & Hrest).
      exists (q :: pre), p, post. split; [done|]. split; [|done].
      simpl. rewrite Hpre. unfold still_running. by rewrite Ht, Hr, Hst.
  - intros (pre & p & post & -> & Hpre & Hp & Hr & Hst).
    rewrite (wait_exits timeout pre post p _ _ Hpre Hp Hr Hst).
    by destruct w.
Qed.

(** X4: the deadline is tested before the container is looked at: a poll
    that comes at or after the deadline ends the wait with
    [asyncio.TimeoutError] even when the container has exited by then. *)
Theorem deadline_before_status (timeout : Z) (pre post : list poll)
    (p : poll) (st : string) (code : Z) :
  forallb (still_running timeout) pre = true →
  reload p = Reloaded st code → has_exited st = true →
  timeout ≤ elapsed p →
  ∃ msg, _wait_for_container (pre ++ p :: post) timeout
         = Some (raise (TimeoutError msg)).
Proof.
  intros Hpre _ _ Hp. eexists. by apply wait_times_out.
Qed.

(** ** [run_agent] *)

(** X5: [run_agent] leaves no trace of the run in [running_containers] and
    touches no other entry; when a container was started, the daemon is
    asked to run it, at most to stop it, and last to remove it; when none
    was, the runner is as before. *)
Theorem run_agent_teardown (self runner : DockerRunner) (rid : string)
    (env : SandboxEnv) (outcome : raising (list (string * json))) :
  run_agent json_loads self rid env = Some (outcome, runner) →
  (∀ e, launch env = inl e → runner = self)
  ∧ (∀ c, launch env = inr c →
       running_containers runner = delete rid (running_containers self)
       ∧ ∃ stopped,
           daemon_calls runner
           = daemon_calls self ++ ContainersRun c :: stopped
               ++ [ContainerRemove c]
           ∧ (stopped = [] ∨ stopped = [ContainerStop c])).
Proof.
  unfold run_agent. destruct (launch env) as [e|c].
  - intros [= _ <-]. split; [done|]. by intros c [=].
  - destruct (run_agent_body _ _ _) as [body|]; [|done].
    split; [by intros e [=]|]. intros c' [= <-].
    destruct body as [[msg|msg]|result]; simpl in H;
      injection H as _ <-; simpl;
      (split; [by rewrite delete_insert_eq|]).
    + exists [ContainerStop c]. rewrite <- app_assoc. auto.
    + exists []. rewrite <- app_assoc. auto.
    + exists []. rewrite <- app_assoc. auto.
Qed.


(** X7: a container that exits with a non-zero code, logs and output read,
    gives a FAILED run that carries the output document and the log lines
    but no error message. *)
Theorem nonzero_exit_fails_without_error (self : DockerRunner)
    (env : SandboxEnv) (c text : string) (w : waited) (doc : json)
    (t_start t_end : Z) (r : RunResult) :
  launch env = inr c →
  _wait_for_container (polls env) (timeout self) = Some (ret w) →
  waited_exit_code w ≠ 0 →
  container_logs env = inr text →
  collect_output json_loads (output_file env) text = ret doc →
  ∃ r', execute_agent_run json_loads self env t_start t_end r = Some r'
        ∧ status r' = FAILED
        ∧ error r' = JNull
        ∧ output r' = doc
        ∧ logs r' = JList (JStr <$> split_lines text).
Proof.
  intros Hl Hw Hcode Hlogs Hdoc.
  destruct (run_agent_exited self (run_id r) c env w text doc
              Hl Hw Hlogs Hdoc) as [runner Hrun].
  unfold execute_agent_run. rewrite Hrun. eexists. split; [reflexivity|].
  simpl. apply Z.eqb_neq in Hcode. rewrite Hcode. by repeat split.
Qed.

(** ** Inference proxy: registrations *)

(** X8: registering a run id that is not registered adds one to the count
    [health_check] reports, and unregistering it again gives back the
    configurations as they were; registering an id a second time replaces
    its configuration and keeps the count; unregistering twice reports
    [not_found] the second time and changes nothing. *)
Theorem registration_round_trip (rid url key : string)
    (run_configs : gmap string RunConfig) :
  (run_configs !! rid = None →
     unregister_run rid (register_run rid url key run_configs)
       = ("unregistered", run_configs)
     ∧ health_check (register_run rid url key run_configs)
       = S (health_check run_configs))
  ∧ (∀ url' key',
       register_run rid url' key' (register_run rid url key run_configs)
         = register_run rid url' key' run_configs
       ∧ health_check
           (register_run rid url' key' (register_run rid url key run_configs))
         = health_check (register_run rid url key run_configs))
  ∧ unregister_run rid (unregister_run rid run_configs).2
    = ("not_found", (unregister_run rid run_configs).2).
Proof.
  unfold register_run, unregister_run, health_check. split; [|split].
  - intros Hfresh. rewrite lookup_insert_eq. split.
    + f_equal. rewrite delete_insert_eq. by apply delete_id.
    + by apply map_size_insert_None.
  - intros url' key'. split; [by rewrite insert_insert_eq|].
    apply map_size_insert_Some. rewrite lookup_insert_eq. eauto.
  - destruct (run_configs !! rid) eqn:Hrid; simpl.
    + by rewrite lookup_delete_eq.
    + by rewrite Hrid.
Qed.

Lemma startswith_app (p s : string) : startswith p (p +:+ s) = true.
Proof.
  unfold startswith. induction p as [|a p IH]; simpl.
  - by destruct s.
  - change (String a p +:+ s) with (String a (p +:+ s)). simpl.
    by destruct (ascii_dec a a).
Qed.

(** X9: the Authorization header always starts with the bearer prefix; a
    credential that already has it passes through unchanged, so building
    the header from a header gives the same header. *)
Theorem authorization_header_bearer (config : RunConfig) :
  startswith "Bearer " (authorization_header config) = true
  ∧ (startswith "Bearer " (api_key config) = true →
     authorization_header config = api_key config)
  ∧ authorization_header
      (mkRunConfig (inference_url config) (authorization_header config))
    = authorization_header config.
Proof.
  assert (startswith "Bearer " (authorization_header config) = true) as Hb.
  { unfold authorization_header.
    destruct (startswith "Bearer " (api_key config)) eqn:Hk; [done|].
    apply startswith_app. }
  split; [done|]. split.
  - unfold authorization_header. by intros ->.
  - unfold authorization_header at 1. simpl. by rewrite Hb.
Qed.

(** ** Inference proxy: the provider's answer *)

(** X10: the proxy answers a provider time-out with 504 and a failed
    connection with 502; every other failure, a provider status other than
    200 included, is answered with 500: the provider's own status is never
    passed on. *)
Theorem provider_failure_mapping (str_exception : inner_exception → string)
    (py_str : json → string) (answer : upstream) (e : HTTPException) :
  handle_inference_response json_loads str_exception py_str answer = inl e →
  match answer with
  | UpstreamTimeout => status_code e = 504
  | UpstreamRequestError _ => status_code e = 502
  | UpstreamResponse code text =>
      status_code e = 500
      ∧ (code ≠ 200 →
         detail e = "Internal error: "
           +:+ str_exception
                 (ProviderStatus
                    (mkHTTPException code
                       ("Inference provider error: " +:+ text))))
  end.
Proof.
  destruct answer as [|msg|code text]; simpl.
  - by intros [= <-].
  - by intros [= <-].
  - unfold relay_response.
    destruct (Z.eqb_spec code 200) as [->|Hne]; simpl.
    + destruct (json_loads text) as [msg|result].
      { intros [= <-]. by split. }
      destruct (choices_in result) as [[|]|]; [done| |].
      * destruct result; try done; intros [= <-]; by split.
      * intros [= <-]. by split.
    + intros [= <-]. by split.
Qed.

(** X11: a provider answer with status 200 whose body has a [choices] entry
    is passed on unchanged, and whatever the proxy returns has a [choices]
    entry: a document without one is replaced by a single assistant message
    whose content is the document's [text] field, or its [str()] without
    such a field. *)
Theorem relayed_answer_has_choices (str_exception : inner_exception → string)
    (py_str : json → string) (answer : upstream) (result : json) :
  handle_inference_response json_loads str_exception py_str answer
    = inr result →
  choices_in result = Some true
  ∧ ∃ text body,
      answer = UpstreamResponse 200 text
      ∧ json_loads text = inr body
      ∧ (choices_in body = Some true → result = body)
      ∧ (choices_in body ≠ Some true →
         ∃ d, body = JDict d
              ∧ result
                = JDict
                    [("choices",
                      JList [JDict
                        [("message",
                          JDict [("role", JStr "assistant");
                                 ("content",
                                  dict_get_default "text"
                                    (JStr (py_str body)) d)])]])]).
Proof.
  destruct answer as [|msg|code text]; simpl; [done..|].
  unfold relay_response.
  destruct (Z.eqb_spec code 200) as [->|Hne]; simpl; [|done].
  destruct (json_loads text) as [msg|body] eqn:Hbody; [done|].
  destruct (choices_in body) as [[|]|] eqn:Hin; [| |done].
  - intros [= <-]. split; [done|]. exists text, body.
    repeat split; try done.
  - destruct body as [| | | | |d]; try done.
    intros [= <-]. split; [done|]. exists text, (JDict d).
    repeat split; try done.
    + intros Hyes. rewrite Hin in Hyes. discriminate.
    + intros _. eauto.
Qed.

(** ** The registry over time *)

Lemma step_keeps_record (app app' : App) (ev : event) (rid : string) :
  step json_loads app ev = Some app' →
  is_Some (records app !! rid) → is_Some (records app' !! rid).
Proof.
  intros Hstep [r Hr]. pose proof (step_status _ _ _ rid Hstep) as Hs.
  rewrite Hr in Hs. destruct Hs as (r' & -> & _). eauto.
Qed.

(** A key enters [runs_db] only with the record that [submit_run] creates
    for a new id. *)
Lemma step_runs_db (app app' : App) (ev : event) (rid : string) :
  step json_loads app ev = Some app' →
  rid ∈ runs_db app' → rid ∈ runs_db app ∨ records app !! rid = None.
Proof.
  destruct ev as [rid0 agent problem now | rid0 files_zip download now
                  | rid0 now | rid0 env now | rid0 stop_raises]; simpl.
  - destruct (records app !! rid0) eqn:Hrid0; [done|]. intros [= <-]. simpl.
    intros [->%elem_of_singleton | Hin]%elem_of_union; auto.
  - destruct (records app !! rid0) as [r0|]; [|done].
    destruct (decide _); [|done]. intros [= <-]. auto.
  - destruct (records app !! rid0) as [r0|]; [|done].
    destruct (decide _); [|done]. case_bool_decide; intros [= <-]; auto.
  - destruct (records app !! rid0) as [r0|]; [|done].
    destruct (decide _); [|done].
    destruct (run_agent _ _ _ _) as [[outcome runner]|]; [|done].
    intros [= <-]. auto.
  - intros [= <-]. unfold deleted, delete_run, delete_run_with.
    destruct (get_run_status rid0 app) as [e|r0]; simpl; [auto|].
    case_bool_decide; simpl; intros [Hin _]%elem_of_difference; auto.
Qed.

(** X12: a run that has been deleted stays deleted: whatever happens
    afterwards, its id never gets back into the registry and
    [get_run_status] keeps answering 404, while the record object itself
    stays in the store. *)
Theorem deleted_run_stays_deleted (evs : list event) (app app' : App)
    (rid : string) :
  run json_loads app evs = Some app' →
  is_Some (records app !! rid) → rid ∉ runs_db app →
  is_Some (records app' !! rid)
  ∧ (rid ∉ runs_db app')
  ∧ is_inl (get_run_status rid app').
Proof.
  revert app. induction evs as [|ev evs IH]; intros app; simpl.
  - intros [= <-] Hrec Hout. repeat split; try done.
    unfold get_run_status. by rewrite bool_decide_eq_false_2.
  - destruct (step _ _ _) as [app1|] eqn:Hstep; [|done].
    intros Hrun Hrec Hout. apply (IH app1 Hrun).
    + by eapply step_keeps_record.
    + intros Hin. destruct (step_runs_db _ _ _ _ Hstep Hin) as [?|Hnone];
        [done|]. rewrite Hnone in Hrec. by destruct Hrec.
Qed.

(** X13: a run deleted while QUEUED never starts: its background task ends
    on the missing key, and the record stays QUEUED, unchanged, for
    ever. *)
Theorem deleted_queued_run_never_starts (evs : list event) (app app' : App)
    (rid : string) (r : RunResult) :
  run json_loads app evs = Some app' →
  records app !! rid = Some r → status r = QUEUED → rid ∉ runs_db app →
  records app' !! rid = Some r.
Proof.
  revert app. induction evs as [|ev evs IH]; intros app; simpl.
  - by intros [= <-].
  - destruct (step _ _ _) as [app1|] eqn:Hstep; [|done].
    intros Hrun Hr Hst Hout. apply (IH app1 Hrun); [|done|].
    + destruct ev as [rid0 agent problem now | rid0 files_zip download now
                      | rid0 now | rid0 env now | rid0 stop_raises];
        simpl in Hstep.
      * destruct (records app !! rid0) eqn:Hrid0; [done|].
        injection Hstep as <-. simpl. rewrite lookup_insert_ne; [done|].
        intros ->. congruence.
      * destruct (records app !! rid0) as [r0|] eqn:Hrid0; [|done].
        destruct (decide _) as [Hp|]; [|done]. injection Hstep as <-. simpl.
        rewrite lookup_insert_ne; [done|]. intros ->. congruence.
      * destruct (records app !! rid0) as [r0|] eqn:Hrid0; [|done].
        destruct (decide _) as [Hq|]; [|done].
        case_bool_decide as Hin; injection Hstep as <-; [|done]. simpl.
        rewrite lookup_insert_ne; [done|]. by intros ->.
      * destruct (records app !! rid0) as [r0|] eqn:Hrid0; [|done].
        destruct (decide _) as [Hrun0|]; [|done].
        destruct (run_agent _ _ _ _) as [[outcome runner]|]; [|done].
        injection Hstep as <-. simpl.
        rewrite lookup_insert_ne; [done|]. intros ->. congruence.
      * injection Hstep as <-. unfold deleted, delete_run, delete_run_with.
        destruct (get_run_status rid0 app) as [e|r0]; simpl; [done|].
        by case_bool_decide.
    + intros Hin. destruct (step_runs_db _ _ _ _ Hstep Hin) as [?|Hnone];
        [done|]. congruence.
Qed.

(** X14: the only terminal statuses a record ever has are COMPLETED and
    FAILED: TIMEOUT, like CANCELLED, is never assigned. *)
Theorem terminal_is_completed_or_failed (evs : list event) (app : App)
    (rid : string) (r : RunResult) :
  run json_loads init evs = Some app →
  records app !! rid = Some r → is_terminal (status r) = true →
  status r = COMPLETED ∨ status r = FAILED.
Proof.
  intros Hrun Hr Hterm.
  pose proof (reachable_record_ok evs app rid r Hrun Hr) as Hok.
  unfold record_ok in Hok. destruct (status r); try done; auto.
Qed.

(** ** What a record holds *)

Lemma execute_agent_run_finish_result_ok (result : list (string * json))
    (now : Z) (r : RunResult) :
  status r = RUNNING → is_Some (started_at r) →
  (truthy (dict_get_default "success" JNull result) = true →
   dict_get "error" result = None) →
  result_ok (execute_agent_run_finish (inr result) now r).
Proof.
  intros Hst [s Hs] Herr. unfold result_ok. simpl. rewrite Hs.
  destruct (truthy _).
  - split; [done|]. intros _. unfold dict_get_default. by rewrite Herr.
  - by split.
Qed.

Lemma run_agent_success_no_error (self runner : DockerRunner) (rid : string)
    (env : SandboxEnv) (result : list (string * json)) :
  run_agent json_loads self rid env = Some (inr result, runner) →
  truthy (dict_get_default "success" JNull result) = true →
  dict_get "error" result = None.
Proof.
  unfold run_agent, run_agent_body.
  destruct (launch env) as [e|c]; simpl.
  { destruct e; simpl; intros [= <- _]; done. }
  destruct (_wait_for_container _ _) as [[e|w]|]; simpl; [| |done].
  { destruct e; simpl; intros [= <- _]; done. }
  destruct (container_logs env) as [e|text]; simpl.
  { destruct e; simpl; intros [= <- _]; done. }
  destruct (collect_output _ _ _) as [e|doc]; simpl.
  { destruct e; simpl; intros [= <- _]; done. }
  by intros [= <- _].
Qed.

Lemma step_result_ok (app app' : App) (ev : event) :
  step json_loads app ev = Some app' →
  (∀ rid r, records app !! rid = Some r → record_ok r ∧ result_ok r) →
  ∀ rid r, records app' !! rid = Some r → result_ok r.
Proof.
  intros Hstep Hok rid.
  destruct ev as [rid0 agent problem now | rid0 files_zip download now
                  | rid0 now | rid0 env now | rid0 stop_raises];
    simpl in Hstep.
  - destruct (records app !! rid0) eqn:Hrid0; [done|].
    injection Hstep as <-. simpl. intros r.
    destruct (decide (rid0 = rid)) as [->|Hne].
    + rewrite lookup_insert_eq. by intros [= <-].
    + rewrite lookup_insert_ne by done. apply Hok.
  - destruct (records app !! rid0) as [r0|] eqn:Hrid0; [|done].
    destruct (decide (status r0 = PENDING)) as [Hst|]; [|done].
    injection Hstep as <-. simpl. intros r.
    destruct (decide (rid0 = rid)) as [->|Hne].
    + rewrite lookup_insert_eq. intros [= <-].
      destruct (Hok _ _ Hrid0) as [Hrec Hres].
      unfold record_ok, result_ok in *. rewrite Hst in *.
      destruct Hrec as (Hs & _ & _). simpl in Hres.
      unfold submit_run_resolve.
      destruct files_zip as [[msg|files]|], download as [msg'|path]; simpl;
        by rewrite ?Hs.
    + rewrite lookup_insert_ne by done. apply Hok.
  - destruct (records app !! rid0) as [r0|] eqn:Hrid0; [|done].
    destruct (decide (status r0 = QUEUED)) as [Hst|]; [|done].
    case_bool_decide; injection Hstep as <-; [|apply Hok].
    simpl. intros r.
    destruct (decide (rid0 = rid)) as [->|Hne].
    + rewrite lookup_insert_eq. intros [= <-].
      destruct (Hok _ _ Hrid0) as [Hrec Hres].
      unfold result_ok in *. rewrite Hst in Hres. exact Hres.
    + rewrite lookup_insert_ne by done. apply Hok.
  - destruct (records app !! rid0) as [r0|] eqn:Hrid0; [|done].
    destruct (decide (status r0 = RUNNING)) as [Hst|]; [|done].
    destruct (run_agent _ _ _ _) as [[outcome runner]|] eqn:Hrun; [|done].
    destruct (run_agent_returns _ _ _ _ _ Hrun) as [result ->].
    injection Hstep as <-. simpl. intros r.
    destruct (decide (rid0 = rid)) as [->|Hne].
    + rewrite lookup_insert_eq. intros [= <-].
      destruct (Hok _ _ Hrid0) as [Hrec _].
      apply execute_agent_run_finish_result_ok; [done| |].
      * unfold record_ok in Hrec. rewrite Hst in Hrec. apply Hrec.
      * by apply (run_agent_success_no_error _ _ _ _ _ Hrun).
    + rewrite lookup_insert_ne by done. apply Hok.
  - injection Hstep as <-. unfold deleted, delete_run, delete_run_with.
    destruct (get_run_status rid0 app) as [e|r0]; simpl; [apply Hok|].
    case_bool_decide; simpl; apply Hok.
Qed.

Lemma run_result_ok (evs : list event) (app app' : App) :
  run json_loads app evs = Some app' →
  (∀ rid r, records app !! rid = Some r → record_ok r ∧ result_ok r) →
  ∀ rid r, records app' !! rid = Some r → record_ok r ∧ result_ok r.
Proof.
  revert app. induction evs as [|ev evs IH]; intros app; simpl.
  - by intros [= <-].
  - destruct (step _ _ _) as [app1|] eqn:Hstep; [|done].
    intros Hrun Hok. apply (IH app1 Hrun). intros rid r Hr. split.
    + eapply step_record_ok; [done| |done].
      intros rid0 r0 Hr0. by destruct (Hok rid0 r0 Hr0).
    + by eapply step_result_ok.
Qed.

(** X15: in every reachable state, the patch of a record that went through
    the sandbox is the one derived from its output, and a COMPLETED record
    has no error; a record that did not get that far has neither output nor
    patch. *)
Theorem patch_follows_output (evs : list event) (app : App) (rid : string)
    (r : RunResult) :
  run json_loads init evs = Some app →
  records app !! rid = Some r →
  (is_terminal (status r) = true → is_Some (started_at r) →
     patch r = derive_patch (output r)
     ∧ (status r = COMPLETED → error r = JNull))
  ∧ (is_terminal (status r) = false ∨ started_at r = None →
     output r = JNull ∧ patch r = JNull).
Proof.
  intros Hrun Hr.
  destruct (run_result_ok evs init app Hrun) with (rid := rid) (r := r)
    as [Hrec Hres]; [|done|].
  { intros rid' r'. unfold init. simpl. by rewrite lookup_empty. }
  unfold record_ok, result_ok in *.
  destruct (status r), (started_at r) as [s|]; simpl; split;
    try done; try (by intros [?|?]); try (by intros _ [? ?]);
    try (intros _; done); try tauto.
Qed.

Lemma submit_run_resolve_identity
    (files_zip : option (string + list (string * string)))
    (download : string + string) (now : Z) (r : RunResult) :
  same_identity r (submit_run_resolve files_zip download now r).1.
Proof.
  unfold submit_run_resolve, same_identity.
  by destruct files_zip as [[msg|files]|], download as [msg'|path].
Qed.

Lemma execute_agent_run_finish_identity
    (outcome : raising (list (string * json))) (now : Z) (r : RunResult) :
  same_identity r (execute_agent_run_finish outcome now r).
Proof. unfold same_identity. by destruct outcome as [[msg|msg]|result]. Qed.

(** One event keeps every record, with the fields it was created with, and
    a new record carries its key as [run_id]. *)
Lemma step_identity (app app' : App) (ev : event) (rid : string) :
  step json_loads app ev = Some app' →
  match records app !! rid with
  | None => ∀ r', records app' !! rid = Some r' → run_id r' = rid
  | Some r => ∃ r', records app' !! rid = Some r' ∧ same_identity r r'
  end.
Proof.
  assert (∀ r, same_identity r r) as Hrefl by done.
  destruct ev as [rid0 agent problem now | rid0 files_zip download now
                  | rid0 now | rid0 env now | rid0 stop_raises]; simpl.
  - destruct (records app !! rid0) eqn:Hrid0; [done|]. intros [= <-]. simpl.
    destruct (decide (rid0 = rid)) as [->|Hne].
    + rewrite Hrid0, lookup_insert_eq. by intros r' [= <-].
    + rewrite lookup_insert_ne by done. untouched.
  - destruct (records app !! rid0) as [r0|] eqn:Hrid0; [|done].
    destruct (decide (status r0 = PENDING)) as [Hst|]; [|done].
    intros [= <-]. simpl.
    destruct (decide (rid0 = rid)) as [->|Hne].
    + rewrite Hrid0, lookup_insert_eq. eexists. split; [done|].
      apply submit_run_resolve_identity.
    + rewrite lookup_insert_ne by done. untouched.
  - destruct (records app !! rid0) as [r0|] eqn:Hrid0; [|done].
    destruct (decide (status r0 = QUEUED)) as [Hst|]; [|done].
    case_bool_decide; intros [= <-]; simpl.
    + destruct (decide (rid0 = rid)) as [->|Hne].
      * rewrite Hrid0, lookup_insert_eq. by eexists.
      * rewrite lookup_insert_ne by done. untouched.
    + untouched.
  - destruct (records app !! rid0) as [r0|] eqn:Hrid0; [|done].
    destruct (decide (status r0 = RUNNING)) as [Hst|]; [|done].
    destruct (run_agent _ _ _ _) as [[outcome runner]|]; [|done].
    intros [= <-]. simpl.
    destruct (decide (rid0 = rid)) as [->|Hne].
    + rewrite Hrid0, lookup_insert_eq. eexists. split; [done|].
      apply execute_agent_run_finish_identity.
    + rewrite lookup_insert_ne by done. untouched.
  - intros [= <-]. unfold deleted, delete_run, delete_run_with.
    destruct (get_run_status rid0 app) as [e|r0]; simpl.
    + untouched.
    + case_bool_decide; simpl; untouched.
Qed.

Lemma run_identity (evs : list event) (app app' : App) (rid : string)
    (r : RunResult) :
  run json_loads app evs = Some app' →
  records app !! rid = Some r →
  ∃ r', records app' !! rid = Some r' ∧ same_identity r r'.
Proof.
  revert app r. induction evs as [|ev evs IH]; intros app r; simpl.
  - intros [= <-] Hr. by exists r.
  - destruct (step _ _ _) as [app1|] eqn:Hstep; [|done].
    intros Hrun Hr. pose proof (step_identity _ _ _ rid Hstep) as Hs.
    rewrite Hr in Hs. destruct Hs as (r1 & Hr1 & H1).
    destruct (IH app1 r1 Hrun Hr1) as (r' & Hr' & H').
    exists r'. split; [done|]. unfold same_identity in *.
    destruct H1 as (? & ? & ? & ?), H' as (? & ? & ? & ?).
    repeat split; congruence.
Qed.

Lemma run_key (evs : list event) (app app' : App) :
  run json_loads app evs = Some app' →
  (∀ rid r, records app !! rid = Some r → run_id r = rid) →
  ∀ rid r, records app' !! rid = Some r → run_id r = rid.
Proof.
  revert app. induction evs as [|ev evs IH]; intros app; simpl.
  - by intros [= <-].
  - destruct (step _ _ _) as [app1|] eqn:Hstep; [|done].
    intros Hrun Hkey. apply (IH app1 Hrun). intros rid r Hr.
    pose proof (step_identity _ _ _ rid Hstep) as Hs.
    destruct (records app !! rid) as [r0|] eqn:Hr0.
    + destruct Hs as (r1 & Hr1 & Hid & _). simplify_eq.
      rewrite Hid. by apply Hkey.
    + by apply Hs.
Qed.

(** X16: a record is stored under its own [run_id], is never dropped from
    the store, and keeps the agent id, the creation time and the problem
    statement it was submitted with through everything that follows. *)
Theorem record_identity_kept (evs evs' : list event) (app app' : App)
    (rid : string) (r : RunResult) :
  run json_loads init evs = Some app →
  records app !! rid = Some r →
  run json_loads app evs' = Some app' →
  run_id r = rid
  ∧ ∃ r', records app' !! rid = Some r'
          ∧ run_id r' = rid
          ∧ agent_id r' = agent_id r
          ∧ created_at r' = created_at r
          ∧ problem_statement r' = problem_statement r.
Proof.
  intros Hrun Hr Hrun'.
  assert (run_id r = rid) as Hkey.
  { apply (run_key evs init app Hrun); [|done].
    intros rid0 r0. unfold init. simpl. by rewrite lookup_empty. }
  split; [done|].
  destruct (run_identity evs' app app' rid r Hrun' Hr)
    as (r' & Hr' & Hid & Hagent & Hcreated & Hproblem).
  exists r'. repeat split; try done. by rewrite Hid.
Qed.

(** ** The bootstrap script: the patch it reports *)

(** X17: a patch the agent supplies, as the [patch] entry of a returned
    document or as returned text, is reported as it is whenever it is not
    empty; [git diff] is looked at only when there is file context and the
    agent supplied no patch, and then replaces it when it printed
    something. *)
Theorem script_patch_priority (has_files : bool) (diff : option string)
    (result : json) :
  (∀ d v, result = JDict d → dict_get "patch" d = Some v →
          truthy v = true → script_patch has_files diff result = v)
  ∧ (∀ s, result = JStr s → s ≠ "" →
          script_patch has_files diff result = JStr s)
  ∧ script_patch false diff result = script_patch false None result
  ∧ (∀ stdout, diff = Some stdout → stdout ≠ "" →
       truthy (script_patch true None result) = false →
       script_patch true diff result = JStr stdout).
Proof.
  unfold script_patch. repeat split.
  - intros d v -> -> Hv. by rewrite Hv.
  - intros s -> Hs%truthy_str. by rewrite Hs.
  - by rewrite !andb_false_r.
  - intros stdout -> Hout%truthy_str Hnone. rewrite !andb_true_r in *.
    destruct (truthy match result with
                     | JDict d =>
                         match dict_get "patch" d with
                         | Some v => v
                         | None => JNull
                         end
                     | JStr s => JStr s
                     | _ => JNull
                     end) eqn:Hown; simpl in *.
    + by rewrite Hown in Hnone.
    + by rewrite Hout.
Qed.

(** X18: when the agent returns a value made of JSON values, which
    [json.dump] writes, and the patch derived is not something [len]
    applies to (no patch at all, which is [None], or a number or a
    boolean), the script has written its document, with the success flag
    on, and then ends with exit status 1 on the final [print]. *)
Theorem script_exit_one_after_writing (has_files : bool) (env : ScriptEnv)
    (result : json) :
  import_agent env = Imported true →
  agent_main env = AgentReturns result →
  has_len (script_patch has_files (git_diff env) result) = false →
  ∃ doc, runner_script has_files env = mkScriptRun (Some (inr (JDict doc))) 1
         ∧ dict_get "success" doc = Some (JBool true)
         ∧ dict_get "result" doc = Some result.
Proof.
  intros Himp Hagent Hlen. unfold runner_script. rewrite Himp, Hagent.
  unfold script_finish_json, script_finish, dict_get_default. simpl.
  rewrite Hlen. eauto.
Qed.

(** ** [list_runs] *)

Lemma insert_newest_first_perm (x : RunResult) (l : list RunResult) :
  insert_newest_first x l ≡ₚ x :: l.
Proof.
  induction l as [|y l IH]; simpl; [done|].
  destruct (created_at y <=? created_at x); [done|].
  rewrite IH. apply Permutation_swap.
Qed.

Lemma sort_newest_first_perm (l : list RunResult) :
  sort_newest_first l ≡ₚ l.
Proof.
  induction l as [|x l IH]; simpl; [done|].
  by rewrite insert_newest_first_perm, IH.
Qed.

Lemma insert_newest_first_sorted (x : RunResult) (l : list RunResult) :
  newest_first l → newest_first (insert_newest_first x l).
Proof.
  unfold newest_first. induction l as [|y l IH]; simpl; intros Hl.
  - by repeat constructor.
  - apply StronglySorted_cons in Hl as [Hy Hl].
    destruct (Z.leb_spec (created_at y) (created_at x)) as [Hle|Hlt].
    + apply StronglySorted_cons. split.
      * constructor; [done|]. eapply Forall_impl; [exact Hy|].
        simpl. intros z Hz. lia.
      * by apply StronglySorted_cons.
    + apply StronglySorted_cons. split; [|by apply IH].
      rewrite insert_newest_first_perm. constructor; [lia|done].
Qed.

Lemma sort_newest_first_sorted (l : list RunResult) :
  newest_first (sort_newest_first l).
Proof.
  induction l as [|x l IH]; simpl; [constructor|].
  by apply insert_newest_first_sorted.
Qed.

Lemma slice_to_take {A : Type} (n : Z) (l : list A) :
  ∃ k, slice_to n l = take k l ∧ (0 ≤ n → k = Z.to_nat n).
Proof.
  unfold slice_to. destruct (Z.leb_spec 0 n); eexists; split; try done. lia.
Qed.

(** X19: [list_runs] returns runs of the registry, each with the status
    asked for if one is given, newest first.  For a limit that is not
    negative it returns as many runs as the limit allows, all the matching
    runs (all the runs when no status is asked for) if the limit is not
    below their number; and in every case the runs returned are the newest
    ones: followed by the runs left out they are all the matching runs,
    newest first. *)
Theorem list_runs_sound (limit : Z) (wanted : option RunStatus)
    (values : list RunResult) :
  let matching :=
    match wanted with
    | Some st => filter (λ r, status r = st) values
    | None => values
    end in
  (∀ r, r ∈ list_runs limit wanted values →
        r ∈ values ∧ (∀ st, wanted = Some st → status r = st))
  ∧ newest_first (list_runs limit wanted values)
  ∧ (0 ≤ limit →
     length (list_runs limit wanted values)
     = Nat.min (Z.to_nat limit) (length matching))
  ∧ (Z.of_nat (length matching) ≤ limit →
     list_runs limit wanted values ≡ₚ matching)
  ∧ (∃ left_out,
       list_runs limit wanted values ++ left_out ≡ₚ matching
       ∧ newest_first (list_runs limit wanted values ++ left_out)).
Proof.
  intros matching. unfold list_runs. fold matching.
  destruct (slice_to_take limit (sort_newest_first matching))
    as (k & -> & Hk).
  split; [|split; [|split; [|split]]].
  - intros r Hr. apply subseteq_take in Hr.
    rewrite sort_newest_first_perm in Hr. unfold matching in Hr.
    destruct wanted as [st|].
    + apply list_elem_of_filter in Hr as [Hst Hin]. split; [done|].
      by intros st' [= <-].
    + by split.
  - unfold newest_first.
    eapply StronglySorted_app_1_l. rewrite take_drop.
    apply sort_newest_first_sorted.
  - intros Hlimit. rewrite (Hk Hlimit), length_take.
    by rewrite sort_newest_first_perm.
  - intros Hlen.
    assert (0 ≤ limit) as Hlimit by lia.
    rewrite (Hk Hlimit), take_ge.
    + apply sort_newest_first_perm.
    + rewrite sort_newest_first_perm. lia.
  - exists (drop k (sort_newest_first matching)). rewrite take_drop.
    split; [apply sort_newest_first_perm | apply sort_newest_first_sorted].
Qed.

(** ** [submit_run] *)

(** X20: [submit_run] adds the background task exactly when it leaves the
    run QUEUED, which is exactly when the archive, if there is one, was
    extracted and the agent was downloaded; otherwise the run is FAILED
    with [completed_at] set and an error text, and a failed extraction
    decides the outcome before the download is looked at. *)
Theorem submit_run_outcome
    (files_zip : option (string + list (string * string)))
    (download : string + string) (now : Z) (r : RunResult) :
  let extracted := match files_zip with Some (inl _) => false | _ => true end in
  let downloaded := match download with inl _ => false | inr _ => true end in
  let r' := (submit_run_resolve files_zip download now r).1 in
  (submit_run_resolve files_zip download now r).2 = extracted && downloaded
  ∧ (extracted && downloaded = true →
     status r' = QUEUED ∧ completed_at r' = completed_at r
     ∧ error r' = error r
     ∧ ∃ path, download = inr path ∧ agent_path r' = Some path)
  ∧ (extracted && downloaded = false →
     status r' = FAILED ∧ completed_at r' = Some now
     ∧ ∃ msg, error r' = JStr msg)
  ∧ (extracted = false →
     ∀ other, submit_run_resolve files_zip other now r
              = submit_run_resolve files_zip download now r)
  ∧ (∀ files, files_zip = Some (inr files) →
       files_count r' = Some (length files)).
Proof.
  unfold submit_run_resolve.
  destruct files_zip as [[msg|files]|], download as [msg'|path]; simpl;
    repeat split; try done; eauto; by intros ? [= <-].
Qed.

(** ** [download_agent] *)

(** X21: [download_agent] returns the path of the cached file without
    looking at the network when the file exists; after a download that
    succeeded, the file holds the decoded text and every later call returns
    the same path and leaves the files alone. *)
Theorem download_agent_cached (agent_file : string → string)
    (write_error : json → string) (version_id : string)
    (response later : fetched) (files : gmap string string) :
  (is_Some (files !! agent_file version_id) →
     download_agent json_loads agent_file write_error version_id response
       files = (ret (agent_file version_id), files))
  ∧ (∀ path files',
       download_agent json_loads agent_file write_error version_id response
         files = (ret path, files') →
       path = agent_file version_id
       ∧ is_Some (files' !! path)
       ∧ download_agent json_loads agent_file write_error version_id later
           files' = (ret path, files')).
Proof.
  unfold download_agent. split.
  - by intros [code ->].
  - intros path files'.
    destruct (files !! agent_file version_id) as [code|] eqn:Hfile.
    + intros [= <- <-]. rewrite Hfile. eauto.
    + destruct response as [msg|msg|text]; [done..|].
      destruct (match json_loads text with inr v => v | inl _ => JStr text end)
        as [| | |code| |]; try done.
      intros [= <- <-]. rewrite lookup_insert_eq. eauto.
Qed.

(** X22: when the answer decodes to a JSON value that is not a string,
    [download_agent] raises, but the agent file it had opened for writing
    stays behind empty, and the next call returns that empty file as the
    cached agent. *)
Theorem download_agent_leaves_empty_file (agent_file : string → string)
    (write_error : json → string) (version_id text : string) (v : json)
    (later : fetched) (files : gmap string string) :
  files !! agent_file version_id = None →
  json_loads text = inr v → isinstance_str v = false →
  ∃ msg files',
    download_agent json_loads agent_file write_error version_id
      (ResponseText text) files = (raise (Exception msg), files')
    ∧ files' !! agent_file version_id = Some ""
    ∧ download_agent json_loads agent_file write_error version_id later
        files' = (ret (agent_file version_id), files').
Proof.
  intros Hnone Hv Hstr. unfold download_agent. rewrite Hnone, Hv.
  destruct v; try done; eexists _, _; (split; [reflexivity|]);
    rewrite lookup_insert_eq; by split.
Qed.

End EngineProperties.


(** * Closed instances *)


Lemma timed_out_run_is_failed_witness :
  ∃ r', execute_agent_run loads_empty_document (mkDockerRunner 300 ∅ [])
          (mkSandboxEnv (inr "c1")
             [mkPoll 0 (Reloaded "running" 0);
              mkPoll 300 (Reloaded "running" 0)] 300 (ret "") None)
          12 400
          (set_status QUEUED (submit_run_create "r1" "agent" "problem" 10))
        = Some r'
        ∧ status r' = FAILED
        ∧ status r' ≠ TIMEOUT
        ∧ error r' = JStr ("Execution timed out after "
                           +:+ pretty 300 +:+ " seconds").
Proof.
  apply (timed_out_run_is_failed loads_empty_document
           (mkDockerRunner 300 ∅ []) _ "c1"
           [mkPoll 0 (Reloaded "running" 0)] []
           (mkPoll 300 (Reloaded "running" 0))).
  - reflexivity.
  - reflexivity.
  - reflexivity.
  - simpl. lia.
Defined.

Lemma sample_run :
  run loads_empty_document init sample_events = Some sample_final.
Proof. vm_compute. reflexivity. Qed.

Lemma derive_patch_precedence_witness :
  derive_patch (JDict [("patch", JNull);
                       ("result", JDict [("patch", JStr "P2")])])
  = JStr "P2".
Proof.
  refine (proj1 (proj2 (derive_patch_precedence
            [("patch", JNull); ("result", JDict [("patch", JStr "P2")])]) _)
          [("patch", JStr "P2")] (JStr "P2") _ _).
  - intros v Hv. injection Hv as <-. reflexivity.
  - reflexivity.
  - reflexivity.
Defined.

Lemma status_order_witness :
  execution loads_empty_document init sample_events = Some sample_states
  ∧ status_sequence "r1" sample_states
    = [PENDING; QUEUED; RUNNING; COMPLETED]
  ∧ status_sequence "r2" sample_states = [PENDING; FAILED]
  ∧ (status_sequence "r1" sample_states `prefix_of` [PENDING; FAILED]
     ∨ ∃ t, is_terminal t = true
            ∧ status_sequence "r1" sample_states
                `prefix_of` [PENDING; QUEUED; RUNNING; t]).
Proof.
  split; [vm_compute; reflexivity|].
  split; [vm_compute; reflexivity|].
  split; [vm_compute; reflexivity|].
  apply (status_order loads_empty_document sample_events sample_states "r1").
  vm_compute. reflexivity.
Defined.

Lemma timestamps_invariant_witness :
  (is_Some (completed_at sample_r1) ↔ is_terminal (status sample_r1) = true)
  ∧ (is_Some (duration_seconds sample_r1)
     ↔ is_Some (started_at sample_r1) ∧ is_Some (completed_at sample_r1))
  ∧ (∀ d s c, duration_seconds sample_r1 = Some d →
              started_at sample_r1 = Some s →
              completed_at sample_r1 = Some c → d = c - s).
Proof.
  apply (timestamps_invariant loads_empty_document sample_events
           sample_final "r1" sample_r1).
  - vm_compute. reflexivity.
  - vm_compute. reflexivity.
Defined.


Lemma inference_routing_witness :
  ∃ post,
    handle_inference sample_environ sample_request
      (register_run "r1" "https://run.example/v1" "run-key" ∅) = inr post
    ∧ post_url post = "https://run.example/v1"
    ∧ authorization post = "Bearer run-key".
Proof.
  apply (proj1 (inference_routing sample_environ sample_request
                  (register_run "r1" "https://run.example/v1" "run-key" ∅))
           (mkRunConfig "https://run.example/v1" "run-key")).
  vm_compute. reflexivity.
Defined.

Lemma delete_run_behaviour_witness :
  ∃ msg,
    delete_run_with (stop_run false) "r1" sample_before_delete =
      (inr msg,
       mkApp (records sample_before_delete)
         (runs_db sample_before_delete ∖ {["r1"]})
         (docker_runner sample_before_delete),
       [RecordRemoved "r1"]).
Proof.
  apply (proj1 (proj2 (delete_run_behaviour (stop_run false) "r1"
                         sample_before_delete)) sample_r1).
  - vm_compute. reflexivity.
  - reflexivity.
Defined.


(** C9, as stated, fails: the container exits with 0, reading its logs
    raises, and the run is recorded as FAILED. *)
Lemma exit_zero_not_completed_counterexample :
  _wait_for_container (polls sample_env_bad_logs) 300
    = Some (ret (mkWaited 0 "exited"))
  ∧ ∃ r', execute_agent_run loads_empty_document (mkDockerRunner 300 ∅ [])
            sample_env_bad_logs 12 20 sample_queued = Some r'
          ∧ status r' = FAILED
          ∧ status r' ≠ COMPLETED.
Proof.
  split; [reflexivity|]. eexists. split; [vm_compute; reflexivity|].
  split; [reflexivity|discriminate].
Qed.

Lemma completed_iff_exit_code_zero_witness :
  (status sample_r1 = COMPLETED →
     ∃ c w, launch sample_env = inr c
            ∧ _wait_for_container (polls sample_env) 300 = Some (ret w)
            ∧ waited_exit_code w = 0)
  ∧ (∀ c w logs doc,
       launch sample_env = inr c →
       _wait_for_container (polls sample_env) 300 = Some (ret w) →
       container_logs sample_env = inr logs →
       collect_output loads_empty_document (output_file sample_env) logs
         = ret doc →
       (status sample_r1 = COMPLETED ↔ waited_exit_code w = 0)
       ∧ (status sample_r1 = FAILED ↔ waited_exit_code w ≠ 0)
       ∧ output sample_r1 = doc).
Proof.
  apply (completed_iff_exit_code_zero loads_empty_document
           (mkDockerRunner 300 ∅ []) sample_env 12 20 sample_queued sample_r1).
  vm_compute. reflexivity.
Defined.

Lemma never_cancelled_witness :
  (∀ rid r, records sample_final !! rid = Some r → status r ≠ CANCELLED)
  ∧ (∀ rid stop_raises r,
       get_run_status rid sample_final = inr r →
       records (deleted stop_raises rid sample_final) !! rid = Some r
       ∧ (rid ∉ runs_db (deleted stop_raises rid sample_final))
       ∧ is_inl (get_run_status rid (deleted stop_raises rid sample_final))).
Proof.
  apply (never_cancelled loads_empty_document sample_events sample_final).
  vm_compute. reflexivity.
Defined.

(** * More closed instances *)

Lemma cleanup_stops_everything_witness :
  running_containers (cleanup (λ _, false) ["r1"; "r2"] sample_runner) = ∅
  ∧ (∀ rid c,
       running_containers sample_runner !! rid = Some c →
       c ∈ stop_requests
             (daemon_calls (cleanup (λ _, false) ["r1"; "r2"] sample_runner))).
Proof.
  apply (cleanup_stops_everything (λ _, false) ["r1"; "r2"] sample_runner).
  vm_compute. reflexivity.
Defined.

Lemma wait_returns_first_exit_witness :
  _wait_for_container (polls sample_env) 300 = Some (ret (mkWaited 0 "exited")).
Proof.
  apply (proj2 (wait_returns_first_exit 300 (polls sample_env)
                  (mkWaited 0 "exited"))).
  exists [mkPoll 0 (Reloaded "running" 0)], (mkPoll 1 (Reloaded "exited" 0)), [].
  repeat split; reflexivity.
Defined.

Lemma deadline_before_status_witness :
  ∃ msg, _wait_for_container
           ([mkPoll 0 (Reloaded "running" 0)]
            ++ mkPoll 300 (Reloaded "exited" 0) :: []) 300
         = Some (raise (TimeoutError msg)).
Proof.
  apply (deadline_before_status 300 [mkPoll 0 (Reloaded "running" 0)] []
           (mkPoll 300 (Reloaded "exited" 0)) "exited" 0).
  - reflexivity.
  - reflexivity.
  - reflexivity.
  - simpl. lia.
Defined.

Lemma run_agent_teardown_witness :
  (∀ e, launch sample_env = inl e
        → sample_runner_after = mkDockerRunner 300 ∅ [])
  ∧ (∀ c, launch sample_env = inr c →
       running_containers sample_runner_after
       = delete "r1" (running_containers (mkDockerRunner 300 ∅ []))
       ∧ ∃ stopped,
           daemon_calls sample_runner_after
           = daemon_calls (mkDockerRunner 300 ∅ [])
               ++ ContainersRun c :: stopped ++ [ContainerRemove c]
           ∧ (stopped = [] ∨ stopped = [ContainerStop c])).
Proof.
  apply (run_agent_teardown loads_empty_document (mkDockerRunner 300 ∅ [])
           sample_runner_after "r1" sample_env (ret sample_result)).
  vm_compute. reflexivity.
Defined.


Lemma nonzero_exit_fails_without_error_witness :
  ∃ r', execute_agent_run loads_empty_document (mkDockerRunner 300 ∅ [])
          sample_env_exit3 12 20 sample_queued = Some r'
        ∧ status r' = FAILED
        ∧ error r' = JNull
        ∧ output r' = JDict []
        ∧ logs r' = JList (JStr <$> split_lines "Traceback").
Proof.
  apply (nonzero_exit_fails_without_error loads_empty_document
           (mkDockerRunner 300 ∅ []) sample_env_exit3 "c1" "Traceback"
           (mkWaited 3 "exited") (JDict [])).
  - reflexivity.
  - reflexivity.
  - simpl. lia.
  - reflexivity.
  - reflexivity.
Defined.

Lemma provider_failure_mapping_witness :
  status_code (mkHTTPException 500 "Internal error: 429") = 500
  ∧ (429 ≠ 200 →
     detail (mkHTTPException 500 "Internal error: 429")
     = "Internal error: "
         +:+ (λ _ : inner_exception, "429")
               (ProviderStatus
                  (mkHTTPException 429
                     ("Inference provider error: " +:+ "slow down")))).
Proof.
  apply (provider_failure_mapping loads_empty_document (λ _, "429")
           (λ _, "") (UpstreamResponse 429 "slow down")
           (mkHTTPException 500 "Internal error: 429")).
  reflexivity.
Defined.

Lemma relayed_answer_has_choices_witness :
  choices_in (JDict [("choices", JList [])]) = Some true
  ∧ ∃ text body,
      UpstreamResponse 200 "{}" = UpstreamResponse 200 text
      ∧ (λ _ : string, inr (JDict [("choices", JList [])])) text
        = (inr body : string + json)
      ∧ (choices_in body = Some true
         → JDict [("choices", JList [])] = body)
      ∧ (choices_in body ≠ Some true →
         ∃ d, body = JDict d
              ∧ JDict [("choices", JList [])]
                = JDict
                    [("choices",
                      JList [JDict
                        [("message",
                          JDict [("role", JStr "assistant");
                                 ("content",
                                  dict_get_default "text"
                                    (JStr ((λ _ : json, "") body)) d)])]])]).
Proof.
  apply (relayed_answer_has_choices
           (λ _, inr (JDict [("choices", JList [])]))
           (λ _, "") (λ _, "") (UpstreamResponse 200 "{}")
           (JDict [("choices", JList [])])).
  reflexivity.
Defined.

Lemma deleted_run_stays_deleted_witness :
  is_Some (records (deleted false "r2" sample_final) !! "r1")
  ∧ ("r1" ∉ runs_db (deleted false "r2" sample_final))
  ∧ is_inl (get_run_status "r1" (deleted false "r2" sample_final)).
Proof.
  apply (deleted_run_stays_deleted loads_empty_document [Delete "r2" false]
           sample_final (deleted false "r2" sample_final) "r1").
  - reflexivity.
  - vm_compute. eauto.
  - intros H. vm_compute in H. discriminate H.
Defined.

Lemma terminal_is_completed_or_failed_witness :
  status sample_r2 = COMPLETED ∨ status sample_r2 = FAILED.
Proof.
  apply (terminal_is_completed_or_failed loads_empty_document sample_events
           sample_final "r2" sample_r2).
  - vm_compute. reflexivity.
  - vm_compute. reflexivity.
  - reflexivity.
Defined.

Lemma deleted_queued_run_never_starts_witness :
  records sample_deleted_queued !! "r1" = Some sample_queued.
Proof.
  apply (deleted_queued_run_never_starts loads_empty_document
           [ExecStart "r1" 30] sample_deleted_queued sample_deleted_queued
           "r1" sample_queued).
  - vm_compute. reflexivity.
  - vm_compute. reflexivity.
  - reflexivity.
  - intros H. vm_compute in H. discriminate H.
Defined.

Lemma patch_follows_output_witness :
  (is_terminal (status sample_r1) = true → is_Some (started_at sample_r1) →
     patch sample_r1 = derive_patch (output sample_r1)
     ∧ (status sample_r1 = COMPLETED → error sample_r1 = JNull))
  ∧ (is_terminal (status sample_r1) = false ∨ started_at sample_r1 = None →
     output sample_r1 = JNull ∧ patch sample_r1 = JNull).
Proof.
  apply (patch_follows_output loads_empty_document sample_events sample_final
           "r1" sample_r1).
  - vm_compute. reflexivity.
  - vm_compute. reflexivity.
Defined.

Lemma record_identity_kept_witness :
  run_id sample_r1 = "r1"
  ∧ ∃ r', records (deleted false "r2" sample_final) !! "r1" = Some r'
          ∧ run_id r' = "r1"
          ∧ agent_id r' = agent_id sample_r1
          ∧ created_at r' = created_at sample_r1
          ∧ problem_statement r' = problem_statement sample_r1.
Proof.
  apply (record_identity_kept loads_empty_document sample_events
           [Delete "r2" false] sample_final
           (deleted false "r2" sample_final) "r1" sample_r1).
  - vm_compute. reflexivity.
  - vm_compute. reflexivity.
  - reflexivity.
Defined.

Lemma script_patch_priority_witness :
  script_patch true (Some "diff --git a/x b/x") (JDict [("patch", JStr "P")])
  = JStr "P".
Proof.
  apply (proj1 (script_patch_priority true (Some "diff --git a/x b/x")
                  (JDict [("patch", JStr "P")]))
           [("patch", JStr "P")] (JStr "P")).
  - reflexivity.
  - reflexivity.
  - reflexivity.
Defined.

Lemma script_exit_one_after_writing_witness :
  ∃ doc,
    runner_script false
      (mkScriptEnv (Imported true) (AgentReturns (JDict [("notes", JStr "n")]))
         None)
    = mkScriptRun (Some (inr (JDict doc))) 1
    ∧ dict_get "success" doc = Some (JBool true)
    ∧ dict_get "result" doc = Some (JDict [("notes", JStr "n")]).
Proof.
  apply (script_exit_one_after_writing false
           (mkScriptEnv (Imported true)
              (AgentReturns (JDict [("notes", JStr "n")])) None)
           (JDict [("notes", JStr "n")])).
  - reflexivity.
  - reflexivity.
  - reflexivity.
Defined.

Lemma list_runs_sound_witness :
  list_runs 5 None [sample_r1; sample_r2] ≡ₚ [sample_r1; sample_r2].
Proof.
  apply (proj1 (proj2 (proj2 (proj2 (list_runs_sound 5 None
                                       [sample_r1; sample_r2]))))).
  vm_compute. discriminate.
Defined.

Lemma download_agent_cached_witness :
  download_agent loads_empty_document (λ v, "agent_cache/" +:+ v +:+ ".py")
    (λ _, "") "v1" (ClientError "offline")
    {[ "agent_cache/v1.py" := "def agent_main(): pass" ]}
  = (ret ("agent_cache/" +:+ "v1" +:+ ".py"),
     {[ "agent_cache/v1.py" := "def agent_main(): pass" ]}).
Proof.
  apply (proj1 (download_agent_cached loads_empty_document
                  (λ v, "agent_cache/" +:+ v +:+ ".py") (λ _, "") "v1"
                  (ClientError "offline") (ClientError "offline")
                  {[ "agent_cache/v1.py" := "def agent_main(): pass" ]})).
  vm_compute. eauto.
Defined.

Lemma download_agent_leaves_empty_file_witness :
  ∃ msg files',
    download_agent loads_empty_document (λ v, "agent_cache/" +:+ v +:+ ".py")
      (λ _, "write() argument must be str, not dict") "v1"
      (ResponseText "{}") ∅ = (raise (Exception msg), files')
    ∧ files' !! ("agent_cache/" +:+ "v1" +:+ ".py") = Some ""
    ∧ download_agent loads_empty_document
        (λ v, "agent_cache/" +:+ v +:+ ".py")
        (λ _, "write() argument must be str, not dict") "v1"
        (ClientError "offline") files'
      = (ret ("agent_cache/" +:+ "v1" +:+ ".py"), files').
Proof.
  apply (download_agent_leaves_empty_file loads_empty_document
           (λ v, "agent_cache/" +:+ v +:+ ".py")
           (λ _, "write() argument must be str, not dict") "v1" "{}"
           (JDict []) (ClientError "offline") ∅).
  - reflexivity.
  - reflexivity.
  - reflexivity.
Defined.
